(** * dvbtext.c: DVB text decoding and XML escaping

    A shallow embedding of [convert_text] and [xmlify] (tv_grab_dvb_plus,
    file dvbtext.c) together with the properties stated about them.

    The C code works on NUL-terminated strings held in three kinds of
    storage: memory owned by the caller (or by a collaborator), and the two
    static arrays [buf] and [result].  All three are modelled, with the
    declared array sizes, so that a read or a write outside an object is
    visible as [Undefined] behaviour rather than silently succeeding. *)

From Stdlib Require Import List ZArith Lia Bool String Ascii DecimalString.
From Stdlib Require Import Strings.Byte.
Import ListNotations.
Open Scope string_scope.
Open Scope list_scope.
Open Scope nat_scope.

Set Implicit Arguments.

(* ------------------------------------------------------------------ *)
(** ** C objects, pointers and the process state *)

(** [#define MAX 1024] *)
Definition MAX : nat := 1024.

(** [static char buf[MAX * 6];] and [static char result[MAX * 6];] *)
Definition sizeof_buf : nat := MAX * 6.
Definition sizeof_result : nat := MAX * 6.

(** The storage a [char *] can point into.  [Caller bytes] is memory that
    this file never writes: the array [bytes] followed by its terminating
    NUL (the raw field handed in by the caller, a string literal, or the
    string returned by the Freesat decoder). *)
Inductive block : Type :=
| Caller (bytes : list byte)
| Buf
| Result.

Record cptr : Type := mkptr { blk : block; off : nat }.

Definition ptr_add (p : cptr) (k : nat) : cptr := mkptr (blk p) (off p + k).

(** [iconv_t] is a pointer type; [NULL] is 0 and [(iconv_t) -1] is the
    failure value of [iconv_open]. *)
Definition iconv_t : Type := Z.
Definition NULL : iconv_t := 0%Z.
Definition iconv_failed : iconv_t := (-1)%Z.

Inductive level : Type := WARNING | ERROR.

(** Calls that leave this file, in the order they are made: the log sink,
    the Freesat decoder and the three entry points of the conversion
    engine. *)
Inductive event : Type :=
| log_message (lvl : level) (fmt : string) (arg : option byte)
| call_freesat_huffman_to_string (src : list byte) (len : nat)
| call_iconv_close (h : iconv_t)
| call_iconv_open (tocode fromcode : string)
| call_iconv (h : iconv_t) (inbytes : list byte) (outbytesleft : nat).

(** The file's static variables, and the trace of external calls. *)
Record state : Type := mkstate {
  buf : nat -> byte;
  result : nat -> byte;
  cs_old : string;
  cd : iconv_t;
  trace : list event
}.

(** Static storage is zero-initialised. *)
Definition initial_state : state :=
  mkstate (fun _ => x00) (fun _ => x00) EmptyString NULL [].

Definition set_buf (f : nat -> byte) (st : state) : state :=
  mkstate f (result st) (cs_old st) (cd st) (trace st).
Definition set_result (f : nat -> byte) (st : state) : state :=
  mkstate (buf st) f (cs_old st) (cd st) (trace st).
Definition set_cs_old (n : string) (st : state) : state :=
  mkstate (buf st) (result st) n (cd st) (trace st).
Definition set_cd (h : iconv_t) (st : state) : state :=
  mkstate (buf st) (result st) (cs_old st) h (trace st).
Definition add_trace (es : list event) (st : state) : state :=
  mkstate (buf st) (result st) (cs_old st) (cd st) (trace st ++ es).

(* ------------------------------------------------------------------ *)
(** ** The monad of C statements *)

(** A statement either completes with a value, terminates the process
    ([exit]), or has undefined behaviour. *)
Inductive outcome (A : Type) : Type :=
| Returns (a : A) (st : state)
| Exits (status : Z) (st : state)
| Undefined.

Arguments Undefined {A}.
Arguments Exits {A} status st.

Definition M (A : Type) : Type := state -> outcome A.

Definition ret {A} (a : A) : M A := fun st => Returns a st.

Definition bind {A B} (m : M A) (k : A -> M B) : M B :=
  fun st =>
    match m st with
    | Returns a st' => k a st'
    | Exits c st' => Exits c st'
    | Undefined => Undefined
    end.

Declare Scope c_scope.
Delimit Scope c_scope with C.
Notation "x <- m ;; k" := (bind m (fun x => k))
  (at level 61, m at next level, right associativity) : c_scope.
Notation "m ;;; k" := (bind m (fun _ => k))
  (at level 61, right associativity) : c_scope.
Open Scope c_scope.

Definition undefined {A} : M A := fun _ => Undefined.
Definition exit {A} (status : Z) : M A := fun st => Exits status st.
Definition emit (e : event) : M unit := fun st => Returns tt (add_trace [e] st).
Definition get {A} (f : state -> A) : M A := fun st => Returns (f st) st.
Definition modify (f : state -> state) : M unit := fun st => Returns tt (f st).

(* ------------------------------------------------------------------ *)
(** ** Memory access *)

Definition upd (f : nat -> byte) (i : nat) (c : byte) : nat -> byte :=
  fun j => if Nat.eqb j i then c else f j.

(** The byte a pointer designates, when it lies inside its object. *)
Definition peek (st : state) (p : cptr) : option byte :=
  match blk p with
  | Caller bytes => nth_error (bytes ++ [x00]) (off p)
  | Buf => if off p <? sizeof_buf then Some (buf st (off p)) else None
  | Result => if off p <? sizeof_result then Some (result st (off p)) else None
  end.

(** [*p] as an rvalue. *)
Definition load (p : cptr) : M byte :=
  fun st => match peek st p with
            | Some c => Returns c st
            | None => Undefined
            end.

(** [*p = c]. *)
Definition store (p : cptr) (c : byte) : M unit :=
  fun st =>
    match blk p with
    | Caller _ => Undefined
    | Buf => if off p <? sizeof_buf
             then Returns tt (set_buf (upd (buf st) (off p) c) st)
             else Undefined
    | Result => if off p <? sizeof_result
                then Returns tt (set_result (upd (result st) (off p) c) st)
                else Undefined
    end.

Definition block_size (b : block) : nat :=
  match b with
  | Caller bytes => S (List.length bytes)
  | Buf => sizeof_buf
  | Result => sizeof_result
  end.

(** The C string starting at [p]: the bytes up to, and not including, the
    first NUL.  [None] when no NUL is met before the end of the object. *)
Fixpoint string_from (st : state) (p : cptr) (fuel : nat) : option (list byte) :=
  match fuel with
  | 0 => None
  | S fuel' =>
      match peek st p with
      | None => None
      | Some c =>
          if Byte.eqb c x00 then Some []
          else option_map (cons c) (string_from st (ptr_add p 1) fuel')
      end
  end.

Definition string_at (st : state) (p : cptr) : option (list byte) :=
  string_from st p (block_size (blk p) - off p).

(** [strlen(p)] *)
Definition strlen (p : cptr) : M nat :=
  fun st => match string_at st p with
            | Some s => Returns (List.length s) st
            | None => Undefined
            end.

(* ------------------------------------------------------------------ *)
(** ** xmlify *)

(** [*r++ = c] *)
Definition put (r : cptr) (c : byte) : M cptr :=
  store r c ;;; ret (ptr_add r 1).

(** One iteration of the loop body: the [switch] on [(unsigned char) *b].
    The three forbidden ranges log and then fall through to [default]. *)
Definition xmlify_switch (b r : cptr) : M cptr :=
  c <- load b ;;
  match c with
  | x22 =>
      r <- put r "&" ;; r <- put r "q" ;; r <- put r "u" ;;
      r <- put r "o" ;; r <- put r "t" ;; put r ";"
  | x26 =>
      r <- put r "&" ;; r <- put r "a" ;; r <- put r "m" ;;
      r <- put r "p" ;; put r ";"
  | x3c =>
      r <- put r "&" ;; r <- put r "l" ;; r <- put r "t" ;; put r ";"
  | x3e =>
      r <- put r "&" ;; r <- put r "g" ;; r <- put r "t" ;; put r ";"
  | x00 | x01 | x02 | x03 | x04 | x05 | x06 | x07 | x08
  | x0b | x0c | x0d | x0e | x0f
  | x10 | x11 | x12 | x13 | x14 | x15 | x16 | x17
  | x18 | x19 | x1a | x1b | x1c | x1d | x1e | x1f
  | x7f =>
      emit (log_message ERROR "forbidden char: %02x" (Some c)) ;;;
      put r c
  | _ => put r c
  end.

(** [for (; b < outbuf; b++)] with [n = outbuf - b] iterations left. *)
Fixpoint xmlify_loop (n : nat) (b r : cptr) : M cptr :=
  match n with
  | 0 => ret r
  | S n' => r' <- xmlify_switch b r ;; xmlify_loop n' (ptr_add b 1) r'
  end.

Definition xmlify (s : cptr) : M cptr :=
  n <- strlen s ;;
  r <- xmlify_loop n s (mkptr Result 0) ;;
  store r x00 ;;;
  ret (mkptr Result 0).

(* ------------------------------------------------------------------ *)
(** ** Charset names: [strncpy], [strncmp], [snprintf] on [char[16]] *)

(** Charset names live in 16-byte arrays ([cs_new], [cs_old]) and are only
    ever handled through calls bounded by 16; an array is modelled by the
    string it holds. *)

(** The content of [t] after [strncpy(t, d, n)]. *)
Definition strncpy (d : string) (n : nat) : string := substring 0 n d.

(** [strncmp(a, b, n)]: zero exactly when the first [n] characters agree. *)
Definition strncmp (a b : string) (n : nat) : Z :=
  match String.compare (substring 0 n a) (substring 0 n b) with
  | Eq => 0
  | Lt => -1
  | Gt => 1
  end.

(** A format with one [%d] conversion, applied to an [int]. *)
Fixpoint format_d (fmt : string) (i : Z) : string :=
  match fmt with
  | EmptyString => EmptyString
  | String "%" (String "d" rest) =>
      (NilZero.string_of_int (Z.to_int i) ++ rest)%string
  | String c rest => String c (format_d rest i)
  end.

(** The content of [t] after [snprintf(t, n, fmt, i)]: at most [n - 1]
    characters are kept. *)
Definition snprintf (n : nat) (fmt : string) (i : Z) : string :=
  substring 0 (n - 1) (format_d fmt i).

(** [const char *iso6937_encoding = "ISO6937";] (never assigned in this
    file). *)
Definition iso6937_encoding : string := "ISO6937".

(* ------------------------------------------------------------------ *)
(** ** The encoding handlers *)

(** A handler is called as [handler(cs_new, &s, data)].

    - [t] is the content of the caller's [cs_new] ([None]: not yet
      written); the handler returns the new content.
    - [s] has type [const char **]: it is modelled by the array of
      [const char *] objects it points to.  [convert_text] passes the
      address of its own parameter, a single object, so there the array
      has exactly one element.  [s[k]] is the [k]-th element;
      [*s[k]] is the first byte of the string [s[k]] points to (postfix
      indexing binds tighter than unary [*]).
    - [d] is the table's [data] pointer ([None]: [NULL]). *)
Definition handler_t : Type :=
  option string -> list cptr -> option string ->
  M (Z * option string * list cptr).

(** [s[k]] *)
Definition subscript (s : list cptr) (k : nat) : M cptr :=
  match nth_error s k with
  | Some p => ret p
  | None => undefined
  end.

(** [*s = p] *)
Definition assign0 (s : list cptr) (p : cptr) : list cptr :=
  match s with
  | [] => []
  | _ :: rest => p :: rest
  end.

Definition encoding_default : handler_t := fun t s d =>
  ret (0%Z, Some (strncpy iso6937_encoding 16), s).

Definition encoding_fixed : handler_t := fun t s d =>
  match d with
  | None => undefined
  | Some name =>
      p <- subscript s 0 ;;
      ret (0%Z, Some (strncpy name 16), assign0 s (ptr_add p 1))
  end.

Definition encoding_freesat : handler_t := fun t s d =>
  match d with
  | None => undefined
  | Some name => ret (0%Z, Some (strncpy name 16), s)
  end.

(** [int i = ((unsigned char) *s[1] << 8) + (unsigned char) *s[2];] reads
    through the pointers [s[1]] and [s[2]], the two objects that follow
    the one [s] points to. *)
Definition encoding_variable : handler_t := fun t s d =>
  p1 <- subscript s 1 ;;
  c1 <- load p1 ;;
  p2 <- subscript s 2 ;;
  c2 <- load p2 ;;
  let i := (Z.shiftl (Z.of_N (Byte.to_N c1)) 8 + Z.of_N (Byte.to_N c2))%Z in
  match d with
  | None => undefined
  | Some fmt =>
      p <- subscript s 0 ;;
      ret (0%Z, Some (snprintf 16 fmt i), assign0 s (ptr_add p 3))
  end.

Definition encoding_reserved : handler_t := fun t s d =>
  p <- subscript s 0 ;;
  c <- load p ;;
  emit (log_message WARNING "reserved encoding: %02x" (Some c)) ;;;
  ret (1%Z, t, s).

(** [struct encoding { handler; data }]; a [NULL] handler is [None]. *)
Record encoding_entry : Type := mkentry {
  handler : option handler_t;
  data : option string
}.

(** The 32 initialised elements of [encoding[256]]. *)
Definition encoding_init : list encoding_entry :=
  [ (* 0x00 *) mkentry (Some encoding_reserved) None;
    (* 0x01 *) mkentry (Some encoding_fixed) (Some "ISO-8859-5");
    (* 0x02 *) mkentry (Some encoding_fixed) (Some "ISO-8859-6");
    (* 0x03 *) mkentry (Some encoding_fixed) (Some "ISO-8859-7");
    (* 0x04 *) mkentry (Some encoding_fixed) (Some "ISO-8859-8");
    (* 0x05 *) mkentry (Some encoding_fixed) (Some "ISO-8859-9");
    (* 0x06 *) mkentry (Some encoding_fixed) (Some "ISO-8859-10");
    (* 0x07 *) mkentry (Some encoding_fixed) (Some "ISO-8859-11");
    (* 0x08 *) mkentry (Some encoding_fixed) (Some "ISO-8859-12");
    (* 0x09 *) mkentry (Some encoding_fixed) (Some "ISO-8859-13");
    (* 0x0A *) mkentry (Some encoding_fixed) (Some "ISO-8859-14");
    (* 0x0B *) mkentry (Some encoding_fixed) (Some "ISO-8859-15");
    (* 0x0C *) mkentry (Some encoding_reserved) None;
    (* 0x0D *) mkentry (Some encoding_reserved) None;
    (* 0x0E *) mkentry (Some encoding_reserved) None;
    (* 0x0F *) mkentry (Some encoding_reserved) None;
    (* 0x10 *) mkentry (Some encoding_variable) (Some "ISO-8859-%d");
    (* 0x11 *) mkentry (Some encoding_fixed) (Some "ISO-10646/UCS2");
    (* 0x12 *) mkentry (Some encoding_fixed) (Some "KSC_5601");
    (* 0x13 *) mkentry (Some encoding_fixed) (Some "GB_2312-80");
    (* 0x14 *) mkentry (Some encoding_fixed) (Some "BIG5");
    (* 0x15 *) mkentry (Some encoding_fixed) (Some "ISO-10646/UTF8");
    (* 0x16 *) mkentry (Some encoding_reserved) None;
    (* 0x17 *) mkentry (Some encoding_reserved) None;
    (* 0x18 *) mkentry (Some encoding_reserved) None;
    (* 0x19 *) mkentry (Some encoding_reserved) None;
    (* 0x1A *) mkentry (Some encoding_reserved) None;
    (* 0x1B *) mkentry (Some encoding_reserved) None;
    (* 0x1C *) mkentry (Some encoding_reserved) None;
    (* 0x1D *) mkentry (Some encoding_reserved) None;
    (* 0x1E *) mkentry (Some encoding_reserved) None;
    (* 0x1F *) mkentry (Some encoding_freesat) (Some "ISO-10646/UTF8") ].

(** [encoding[i]]: the initialiser for 0x20 ... 0xFF is commented out in
    the source, so those elements are zero, [{NULL, NULL}]. *)
Definition encoding (i : nat) : encoding_entry :=
  nth i encoding_init (mkentry None None).

(** [encoding[i].handler(t, s, encoding[i].data)] *)
Definition call_handler (i : nat) : handler_t := fun t s d =>
  match handler (encoding i) with
  | Some h => h t s d
  | None => undefined
  end.

(* ------------------------------------------------------------------ *)
(** ** convert_text *)

(** The bytes of the C string at [p] ([strlen(p)] of them). *)
Definition read_string (p : cptr) : M (list byte) :=
  fun st => match string_at st p with
            | Some s => Returns s st
            | None => Undefined
            end.

(** The content of an array after [l] was written from index [i] on. *)
Fixpoint write_list (f : nat -> byte) (i : nat) (l : list byte) : nat -> byte :=
  match l with
  | [] => f
  | c :: l' => write_list (upd f i c) (S i) l'
  end.

(** The string literal [""]. *)
Definition empty_literal : cptr := mkptr (Caller []) 0.

(** What the encoding stage leaves in [convert_text]'s locals. *)
Record resolved : Type := mkresolved {
  r_i : nat;                  (* int i *)
  r_failed : bool;            (* the handler returned non-zero *)
  r_cs_new : option string;   (* char cs_new[16] *)
  r_s : cptr                  (* const char *s *)
}.

(** Lines 155-162: classify the first byte and run its handler on
    [(cs_new, &s, data)]. *)
Definition convert_text_resolve (s : cptr) : M resolved :=
  c <- load s ;;
  let i := Byte.to_nat c in
  r <- (if i <? 0x1F
        then call_handler i None [s] (data (encoding i))
        else encoding_default None [s] None) ;;
  let '(rc, cs_new, frame) := r in
  s' <- subscript frame 0 ;;
  ret (mkresolved i (negb (rc =? 0)%Z) cs_new s').

(** The external collaborators, as this file sees them.

    - [freesat_huffman_to_string src len] is the string the Freesat
      decoder returns for the [len] bytes at [src].
    - [iconv_open tocode fromcode] is the handle the conversion engine
      hands out, or [(iconv_t) -1].
    - [iconv h inbytes outbytesleft] is what the engine writes through
      [outbuf]; at most [outbytesleft] bytes of it land in the array. *)
Class Collaborators : Type := {
  freesat_huffman_to_string : list byte -> nat -> list byte;
  iconv_open : string -> string -> iconv_t;
  iconv : iconv_t -> list byte -> nat -> list byte
}.

(** Lines 163-165: [s = freesat_huffman_to_string(s, strlen(s))]. *)
Definition convert_text_freesat {E : Collaborators} (s : cptr) : M cptr :=
  src <- read_string s ;;
  emit (call_freesat_huffman_to_string src (List.length src)) ;;;
  ret (mkptr (Caller (freesat_huffman_to_string src (List.length src))) 0).

(** Lines 166-177: reopen the engine when the charset name changed. *)
Definition convert_text_open {E : Collaborators} (cs_new : option string) : M unit :=
  match cs_new with
  | None => undefined
  | Some name =>
      old <- get cs_old ;;
      if (strncmp old name 16 =? 0)%Z then ret tt
      else
        h <- get cd ;;
        (if (h =? NULL)%Z then ret tt
         else emit (call_iconv_close h) ;;; modify (set_cd NULL)) ;;;
        emit (call_iconv_open "UTF-8" name) ;;;
        modify (set_cd (iconv_open "UTF-8" name)) ;;;
        h' <- get cd ;;
        if (h' =? iconv_failed)%Z
        then emit (log_message ERROR "iconv_open() failed: %s" None) ;;;
             exit 1
        else modify (set_cs_old (strncpy name 16))
  end.

(** Lines 179-185: run the engine from [s] into [buf] and terminate what
    it wrote. *)
Definition convert_text_iconv {E : Collaborators} (s : cptr) : M unit :=
  inbytes <- read_string s ;;
  h <- get cd ;;
  emit (call_iconv h inbytes sizeof_buf) ;;;
  let out := firstn sizeof_buf (iconv h inbytes sizeof_buf) in
  modify (fun st => set_buf (write_list (buf st) 0 out) st) ;;;
  store (mkptr Buf (List.length out)) x00.

Definition convert_text {E : Collaborators} (s : cptr) : M cptr :=
  r <- convert_text_resolve s ;;
  if r_failed r then ret empty_literal
  else
    s <- (if r_i r =? 0x1F then convert_text_freesat (r_s r)
          else ret (r_s r)) ;;
    convert_text_open (r_cs_new r) ;;;
    convert_text_iconv s ;;;
    xmlify (mkptr Buf 0).

(* ------------------------------------------------------------------ *)
(** ** The specification's words *)

(** The substitution table, the forbidden ranges and the resolver, as the
    specification words them, to be compared with the code above. *)

Module Spec.

(** The substitution table of the XML Escaper. *)
Definition xml_entity (c : byte) : list byte :=
  match c with
  | x22 => list_byte_of_string "&quot;"
  | x26 => list_byte_of_string "&amp;"
  | x3c => list_byte_of_string "&lt;"
  | x3e => list_byte_of_string "&gt;"
  | _ => [c]
  end.

(** The byte-wise, left-to-right image of a byte sequence. *)
Definition escape (s : list byte) : list byte := flat_map xml_entity s.

(** The control codes XML 1.0 forbids: 0x00-0x08, 0x0B-0x1F and 0x7F. *)
Definition forbidden (c : byte) : bool :=
  let n := Byte.to_N c in
  ((n <=? 0x08) || ((0x0B <=? n) && (n <=? 0x1F)) || (n =? 0x7F))%N.

(** The Encoding Descriptor of a table slot. *)
Inductive descriptor : Type :=
| Reserved
| FixedCharset (name : string)
| VariableCharset (template : string)
| DefaultCharset
| CompressedCharset (name : string).

(** The selector ranges: Reserved slots are 0x00, 0x0C-0x0F and 0x16-0x1E;
    the variable slot is 0x10; the compressed slot is 0x1F; the other
    slots below 0x20 are fixed. *)
Definition reserved_selector (b0 : byte) : bool :=
  let n := Byte.to_nat b0 in
  (n =? 0x00) || ((0x0C <=? n) && (n <=? 0x0F)) || ((0x16 <=? n) && (n <=? 0x1E)).

Definition fixed_selector (b0 : byte) : bool :=
  let n := Byte.to_nat b0 in
  ((0x01 <=? n) && (n <=? 0x0B)) || ((0x11 <=? n) && (n <=? 0x15)).

Definition variable_selector (b0 : byte) : bool := Byte.to_nat b0 =? 0x10.

(** The slot of a leading byte; charset names are those of the code's
    table. *)
Definition slot (b0 : byte) : descriptor :=
  let name := match data (encoding (Byte.to_nat b0)) with
              | Some n => n
              | None => EmptyString
              end in
  if reserved_selector b0 then Reserved
  else if fixed_selector b0 then FixedCharset name
  else if variable_selector b0 then VariableCharset name
  else if Byte.to_nat b0 =? 0x1F then CompressedCharset name
  else DefaultCharset.

Inductive ResolutionError : Type :=
| InvalidInput
| UnsupportedEncoding (code : byte).

(** [resolve(raw) -> (charset_name, content_offset) | ResolutionError], as
    the specification words it. *)
Definition resolve (raw : list byte) : ResolutionError + (string * nat) :=
  match raw with
  | [] => inl InvalidInput
  | b0 :: tail =>
      if Byte.to_nat b0 <=? 0x1E then
        match slot b0 with
        | Reserved => inl (UnsupportedEncoding b0)
        | FixedCharset name => inr (name, 1)
        | VariableCharset template =>
            match tail with
            | b1 :: b2 :: _ =>
                let idx := Z.lor (Z.shiftl (Z.of_N (Byte.to_N b1)) 8)
                                 (Z.of_N (Byte.to_N b2)) in
                inr (format_d template idx, 3)
            | _ => inl InvalidInput
            end
        | _ => inr (iso6937_encoding, 0)
        end
      else inr (iso6937_encoding, 0)
  end.

End Spec.

(* ------------------------------------------------------------------ *)
(** ** Vocabulary of the statements *)

(** The diagnostic a forbidden byte produces. *)
Definition forbidden_char (c : byte) : event :=
  log_message ERROR "forbidden char: %02x" (Some c).

(** The diagnostics of a whole string, in input order. *)
Definition reports (s : list byte) : list event :=
  map forbidden_char (filter Spec.forbidden s).

(** The state [xmlify] leaves behind when its input string was [s]:
    [result] holds the image of [s] and a terminating NUL, the trace has
    grown by the diagnostics of [s], and nothing else has changed. *)
Definition xmlify_post (st : state) (s : list byte) : state :=
  mkstate (buf st)
          (upd (write_list (result st) 0 (Spec.escape s))
               (List.length (Spec.escape s)) x00)
          (cs_old st) (cd st) (trace st ++ reports s).

(** [l] is stored from [p] on. *)
Fixpoint bytes_at (st : state) (p : cptr) (l : list byte) : Prop :=
  match l with
  | [] => True
  | c :: l' => peek st p = Some c /\ bytes_at st (ptr_add p 1) l'
  end.

(** [*r++ = c] for each [c] of [l] in turn. *)
Fixpoint puts (r : cptr) (l : list byte) : M cptr :=
  match l with
  | [] => ret r
  | c :: l' =>
      match l' with
      | [] => put r c
      | _ => r' <- put r c ;; puts r' l'
      end
  end.

(** A byte sequence that can be the content of a C string: no NUL. *)
Definition is_c_string (s : list byte) : bool :=
  forallb (fun c => negb (Byte.eqb c x00)) s.

(** The C string that starts a piece of memory: what precedes the first
    NUL. *)
Fixpoint c_string_of (m : list byte) : list byte :=
  match m with
  | [] => []
  | c :: m' => if Byte.eqb c x00 then [] else c :: c_string_of m'
  end.

(** Bytes that are neither the terminator nor a quote: what an escaped
    string is made of. *)
Definition plain (c : byte) : bool :=
  negb (Byte.eqb c x00) && negb (Byte.eqb c x22).

(** Where [xmlify] returns its result. *)
Definition result_ptr : cptr := mkptr Result 0.

(** The pointer to a raw field held by the caller. *)
Definition field (raw : list byte) : cptr := mkptr (Caller raw) 0.

(* ------------------------------------------------------------------ *)
(** ** Observations and invariants *)

(** What a caller can observe of the encoding stage, in the
    specification's terms.  The code has one way to fail, a handler
    returning non-zero; the only trace of the cause is the code logged by
    [encoding_reserved], the last call made before returning. *)
Definition observed_resolution (o : outcome resolved)
  : option (Spec.ResolutionError + (string * nat)) :=
  match o with
  | Returns r st =>
      if r_failed r then
        match last (trace st) (call_iconv_close NULL) with
        | log_message WARNING _ (Some code) =>
            Some (inl (Spec.UnsupportedEncoding code))
        | _ => None
        end
      else
        match r_cs_new r with
        | Some name => Some (inr (name, off (r_s r)))
        | None => None
        end
  | _ => None
  end.

(** The diagnostic of a reserved selector. *)
Definition reserved_encoding (c : byte) : event :=
  log_message WARNING "reserved encoding: %02x" (Some c).

(** The Conversion State invariant: before the first conversion there is
    neither a cached name nor a handle; afterwards the handle is the one
    the engine gave out for the cached name. *)
Definition cache_ok {E : Collaborators} (st : state) : Prop :=
  (cs_old st = EmptyString /\ cd st = NULL) \/
  (cd st = iconv_open "UTF-8" (cs_old st) /\ cd st <> iconv_failed).

(** The state [convert_text_open] leaves behind on a cache miss, given
    the trace of its calls and the name it caches. *)
Definition reopened {E : Collaborators} (st : state) (name cached : string)
    (calls : list event) : state :=
  mkstate (buf st) (result st) cached (iconv_open "UTF-8" name)
          (trace st ++ calls).

(** The state [convert_text_iconv] leaves behind: [buf] holds the
    engine's output and a terminating NUL. *)
Definition converted {E : Collaborators} (st : state) (inbytes : list byte) : state :=
  let out := firstn sizeof_buf (iconv (cd st) inbytes sizeof_buf) in
  mkstate (upd (write_list (buf st) 0 out) (List.length out) x00)
          (result st) (cs_old st) (cd st)
          (trace st ++ [call_iconv (cd st) inbytes sizeof_buf]).

(** The calls [convert_text_open] makes to release the current handle. *)
Definition closes (st : state) : list event :=
  if (cd st =? NULL)%Z then [] else [call_iconv_close (cd st)].

(** The diagnostic of a failed [iconv_open]. *)
Definition iconv_open_failed : event :=
  log_message ERROR "iconv_open() failed: %s" None.

(** Numbers of [iconv_open] and [iconv_close] calls in a trace. *)
Definition is_open (e : event) : bool :=
  match e with call_iconv_open _ _ => true | _ => false end.
Definition is_close (e : event) : bool :=
  match e with call_iconv_close _ => true | _ => false end.
Definition count (f : event -> bool) (tr : list event) : nat :=
  List.length (filter f tr).

(* ------------------------------------------------------------------ *)
(** ** Sample inputs and stand-ins for the collaborators *)

(** The scenario input [01 'H' 'i'] and its content. *)
Definition sample_fixed : list byte := x01 :: list_byte_of_string "Hi".
Definition sample_Hi : list byte := list_byte_of_string "Hi".

(** A state in which [ISO6937] is cached under handle 7. *)
Definition warm_state : state :=
  mkstate (fun _ => x00) (fun _ => x00) "ISO6937" 7%Z
          [call_iconv_open "UTF-8" "ISO6937"].

(** A Freesat field: the selector 0x1F and two bytes. *)
Definition sample_freesat : list byte := x1f :: list_byte_of_string "a&".

(** A single ampersand. *)
Definition sample_amp : list byte := list_byte_of_string "&".

(** Memory with a NUL in the middle. *)
Definition sample_nul : list byte :=
  list_byte_of_string "a" ++ x00 :: list_byte_of_string "b".

(** Markup bytes, and a control byte between markup. *)
Definition sample_markup : list byte :=
  x22 :: list_byte_of_string "&<>a".
Definition sample_bell : list byte :=
  list_byte_of_string "a<" ++ x07 :: list_byte_of_string ">b".

(** Stand-ins for the collaborators, used to run the pipeline on concrete
    inputs: an engine that hands out handle 7 for every charset but
    [BIG5] and copies its input, and a decoder that drops the selector
    byte. *)
Definition copying_engine : Collaborators := {|
  freesat_huffman_to_string := fun src len => tl src;
  iconv_open := fun tocode fromcode =>
                  if String.eqb fromcode "BIG5" then iconv_failed else 7%Z;
  iconv := fun h inbytes outbytesleft => inbytes
|}.

(** An engine that renders every input byte as a question mark. *)
Definition masking_engine : Collaborators := {|
  freesat_huffman_to_string := fun src len => tl src;
  iconv_open := fun tocode fromcode => 7%Z;
  iconv := fun h inbytes outbytesleft => map (fun _ => "?"%byte) inbytes
|}.

(* ------------------------------------------------------------------ *)
(** ** Vocabulary of the further properties *)

(** An event that is the report of a forbidden byte. *)
Definition is_forbidden_report (e : event) : bool :=
  match e with
  | log_message ERROR fmt (Some c) =>
      String.eqb fmt "forbidden char: %02x" && Spec.forbidden c
  | _ => false
  end.

(** The tails of the four entities, behind their ampersand. *)
Definition entity_tails : list (list byte) :=
  map list_byte_of_string ["quot;"; "amp;"; "lt;"; "gt;"].

(** [MAX] quote bytes: the shortest field whose image does not fit
    [result]. *)
Definition sample_quotes : list byte := repeat x22 MAX.

(** The three static variables [xmlify] has no business with. *)
Definition same_conversion_state (st st' : state) : Prop :=
  buf st' = buf st /\ cs_old st' = cs_old st /\ cd st' = cd st.

(** The calls [convert_text_open] makes for [name]: none when [name] is
    cached, otherwise the release of the current handle and one
    [iconv_open]. *)
Definition reopening (st : state) (name : string) : list event :=
  if (strncmp (cs_old st) name 16 =? 0)%Z then []
  else closes st ++ [call_iconv_open "UTF-8" name].

(** An engine that fills whatever room it is given. *)
Definition flooding_engine : Collaborators := {|
  freesat_huffman_to_string := fun src len => src;
  iconv_open := fun tocode fromcode => 7%Z;
  iconv := fun h inbytes outbytesleft => repeat "x"%byte outbytesleft
|}.

(** What an outcome of [xmlify], or of a part of it, may have done to the
    state it started from: it has not exited, and if it returned, its
    pointer is into [result], the other static variables are as they
    were, and the trace has grown by reports of forbidden bytes only. *)
Definition touches_only_result (st : state) (o : outcome cptr) : Prop :=
  match o with
  | Returns r st' =>
      blk r = Result /\ same_conversion_state st st' /\
      exists logs, trace st' = trace st ++ logs /\
                   forallb is_forbidden_report logs = true
  | Exits _ _ => False
  | Undefined => True
  end.

(** The name the encoding stage leaves in [cs_new] for a first byte whose
    handler returns zero: the slot's [data] below 0x1F, the default
    otherwise. *)
Definition charset_of (c : byte) : string :=
  if Byte.to_nat c <? 0x1F
  then match data (encoding (Byte.to_nat c)) with
       | Some name => strncpy name 16
       | None => EmptyString
       end
  else strncpy iso6937_encoding 16.

(** The scenario input ['<' '3' '>'] and a field with a fixed selector. *)
Definition sample_heart : list byte := list_byte_of_string "<3>".
Definition sample_turkish : list byte := x05 :: list_byte_of_string "a&b".

(** A field whose selector names a charset the stand-in engine refuses,
    and the bytes with markup significance. *)
Definition sample_big5 : list byte := x14 :: list_byte_of_string "ab".
Definition is_markup (c : byte) : bool :=
  Byte.eqb c x22 || Byte.eqb c x26 || Byte.eqb c x3c || Byte.eqb c x3e.

(** Whether [count] consecutive indices from [i] on, formatted into the
    variable template, are kept whole by [snprintf] on 16 bytes. *)
Fixpoint names_fit_from (count : nat) (i : Z) : bool :=
  match count with
  | 0 => true
  | S count' =>
      String.eqb (snprintf 16 "ISO-8859-%d" i) (format_d "ISO-8859-%d" i)
      && names_fit_from count' (i + 1)
  end.

(* ================================================================== *)
(** * Properties *)

Unset Implicit Arguments.

(* ------------------------------------------------------------------ *)
(** ** Arrays *)

Lemma upd_eq f i c : upd f i c i = c.
Proof. unfold upd. now rewrite Nat.eqb_refl. Qed.

Lemma upd_neq f i c j : j <> i -> upd f i c j = f j.
Proof. intros H. unfold upd. apply Nat.eqb_neq in H. now rewrite H. Qed.

Lemma write_list_below l : forall f i j, j < i -> write_list f i l j = f j.
Proof.
  induction l as [|c l IH]; intros f i j Hj; simpl; [reflexivity|].
  rewrite IH by lia. apply upd_neq. lia.
Qed.

Lemma write_list_above l :
  forall f i j, i + List.length l <= j -> write_list f i l j = f j.
Proof.
  induction l as [|c l IH]; intros f i j Hj; simpl in *; [reflexivity|].
  rewrite IH by lia. apply upd_neq. lia.
Qed.

Lemma write_list_at l :
  forall f i k c, nth_error l k = Some c -> write_list f i l (i + k) = c.
Proof.
  induction l as [|a l IH]; intros f i k c Hk.
  - destruct k; discriminate.
  - destruct k as [|k]; simpl in *.
    + injection Hk as <-. rewrite write_list_below by lia.
      rewrite Nat.add_0_r. apply upd_eq.
    + replace (i + S k) with (S i + k) by lia. now apply IH.
Qed.

Lemma write_list_app l1 : forall l2 f i,
  write_list f i (l1 ++ l2) = write_list (write_list f i l1) (i + List.length l1) l2.
Proof.
  induction l1 as [|a l1 IH]; intros l2 f i; simpl.
  - now rewrite Nat.add_0_r.
  - rewrite IH. f_equal. lia.
Qed.

(* ------------------------------------------------------------------ *)
(** ** Strings in memory *)

Lemma peek_other_state st st' p :
  blk p <> Result -> buf st' = buf st -> peek st' p = peek st p.
Proof.
  intros Hp Hb. unfold peek. destruct (blk p); try congruence.
  now rewrite Hb.
Qed.

Lemma bytes_at_other_state l : forall st st' p,
  blk p <> Result -> buf st' = buf st -> bytes_at st p l -> bytes_at st' p l.
Proof.
  induction l as [|c l IH]; intros st st' p Hp Hb H; simpl in *; [exact I|].
  destruct H as [H1 H2]. split.
  - now rewrite (peek_other_state st st' p Hp Hb).
  - now apply IH with st.
Qed.

(** A string read from memory lies there, is followed by a NUL inside the
    object, and contains no NUL itself. *)
Lemma string_from_inv fuel : forall st p s,
  string_from st p fuel = Some s ->
  bytes_at st p s /\ peek st (ptr_add p (List.length s)) = Some x00 /\
  ~ In x00 s /\ List.length s < fuel.
Proof.
  induction fuel as [|fuel IH]; intros st p s H; simpl in H; [discriminate|].
  destruct (peek st p) as [c|] eqn:Hc; [|discriminate].
  destruct (Byte.eqb c x00) eqn:Hz.
  - injection H as <-. apply byte_dec_bl in Hz. subst c. simpl.
    repeat split; auto; try lia.
    unfold ptr_add. rewrite Nat.add_0_r. now destruct p.
  - destruct (string_from st (ptr_add p 1) fuel) as [s'|] eqn:Hs; [|discriminate].
    injection H as <-. destruct (IH _ _ _ Hs) as (A & B & C & D).
    simpl. repeat split; auto; try lia.
    + unfold ptr_add in *. simpl in *.
      now replace (off p + S (List.length s')) with (off p + 1 + List.length s') by lia.
    + intros [E|E]; [|now apply C].
      subst c. discriminate.
Qed.

Lemma string_at_inv st p s :
  string_at st p = Some s ->
  bytes_at st p s /\ peek st (ptr_add p (List.length s)) = Some x00 /\ ~ In x00 s.
Proof.
  intros H. destruct (string_from_inv _ _ _ _ H) as (A & B & C & _). auto.
Qed.

(** Conversely, a NUL-free sequence followed by a NUL is the string read. *)
Lemma string_from_intro s : forall st p fuel,
  bytes_at st p s -> peek st (ptr_add p (List.length s)) = Some x00 ->
  ~ In x00 s -> List.length s < fuel ->
  string_from st p fuel = Some s.
Proof.
  induction s as [|c s IH]; intros st p fuel Hb Hz Hn Hf;
    (destruct fuel as [|fuel]; [simpl in Hf; lia|]); simpl in *.
  - unfold ptr_add in Hz. rewrite Nat.add_0_r in Hz.
    destruct p as [b o]; simpl in *. now rewrite Hz.
  - destruct Hb as [Hc Hb]. rewrite Hc.
    destruct (Byte.eqb c x00) eqn:E.
    + apply byte_dec_bl in E. subst c. exfalso. apply Hn. now left.
    + rewrite (IH st (ptr_add p 1) fuel); auto; try lia.
      unfold ptr_add in *. simpl.
      now replace (off p + 1 + List.length s) with (off p + S (List.length s)) by lia.
Qed.

Lemma bytes_at_caller pre : forall s st,
  bytes_at st (mkptr (Caller (pre ++ s)) (List.length pre)) s.
Proof.
  intros s; revert pre. induction s as [|c s IH]; intros pre st; simpl; [exact I|].
  split.
  - unfold peek; simpl. rewrite <- app_assoc.
    rewrite nth_error_app2 by lia. now rewrite Nat.sub_diag.
  - unfold ptr_add; simpl.
    replace (pre ++ c :: s) with ((pre ++ [c]) ++ s) by now rewrite <- app_assoc.
    replace (List.length pre + 1) with (List.length (pre ++ [c]))
      by (rewrite length_app; reflexivity).
    apply IH.
Qed.

(** The raw field [s], NUL-free, is the C string its pointer designates. *)
Lemma string_at_caller st s :
  ~ In x00 s -> string_at st (mkptr (Caller s) 0) = Some s.
Proof.
  intros Hn. unfold string_at.
  apply string_from_intro; auto; try (unfold block_size; simpl; lia).
  - apply (bytes_at_caller [] s).
  - unfold peek, ptr_add; simpl.
    rewrite nth_error_app2 by lia. now rewrite Nat.sub_diag.
Qed.

Lemma is_c_string_spec s : is_c_string s = true <-> ~ In x00 s.
Proof.
  unfold is_c_string. rewrite forallb_forall. split.
  - intros H Hin. specialize (H _ Hin). discriminate.
  - intros H c Hc. destruct (Byte.eqb c x00) eqn:E; [|reflexivity].
    apply byte_dec_bl in E. subst c. contradiction.
Qed.

Lemma c_string_of_no_NUL m : ~ In x00 (c_string_of m).
Proof.
  induction m as [|c m IH]; simpl; [tauto|].
  destruct (Byte.eqb c x00) eqn:E; simpl; [tauto|].
  intros [H|H]; [|contradiction]. subst c. discriminate.
Qed.

Lemma c_string_of_split m :
  m = c_string_of m \/ exists post, m = c_string_of m ++ x00 :: post.
Proof.
  induction m as [|c m IH]; simpl; [now left|].
  destruct (Byte.eqb c x00) eqn:E.
  - apply byte_dec_bl in E. subst c. right. now exists m.
  - destruct IH as [IH|[post IH]].
    + left. now rewrite <- IH.
    + right. exists post. simpl. now rewrite <- IH.
Qed.

Lemma c_string_of_id s : ~ In x00 s -> c_string_of s = s.
Proof.
  induction s as [|c s IH]; intros H; simpl; [reflexivity|].
  destruct (Byte.eqb c x00) eqn:E.
  - apply byte_dec_bl in E. subst c. exfalso. apply H. now left.
  - f_equal. apply IH. intros Hin. apply H. now right.
Qed.

Lemma bytes_at_prefix s : forall st p t,
  bytes_at st p (s ++ t) -> bytes_at st p s.
Proof.
  induction s as [|c s IH]; intros st p t H; simpl in *; [exact I|].
  destruct H as [H1 H2]. split; [assumption|]. now apply IH with t.
Qed.

(** The string at a raw field is what precedes its first NUL. *)
Lemma string_at_field st m : string_at st (field m) = Some (c_string_of m).
Proof.
  unfold string_at, field. simpl blk. simpl off. rewrite Nat.sub_0_r.
  pose proof (bytes_at_caller [] m st) as Hb. simpl in Hb.
  destruct (c_string_of_split m) as [H|[post H]].
  - apply string_from_intro.
    + now rewrite <- H.
    + rewrite <- H. unfold peek, ptr_add. simpl blk. simpl off. cbv iota.
      rewrite nth_error_app2 by lia. now rewrite Nat.sub_diag.
    + apply c_string_of_no_NUL.
    + rewrite <- H. unfold block_size. lia.
  - apply string_from_intro.
    + rewrite H in Hb at 2. now apply bytes_at_prefix in Hb.
    + unfold peek, ptr_add. simpl blk. simpl off. cbv iota.
      rewrite H at 1. rewrite <- app_assoc.
      rewrite nth_error_app2 by lia. now rewrite Nat.sub_diag.
    + apply c_string_of_no_NUL.
    + unfold block_size. rewrite H at 2. rewrite length_app. simpl. lia.
Qed.

Lemma peek_field_head st b0 rest : peek st (field (b0 :: rest)) = Some b0.
Proof. reflexivity. Qed.

Lemma peek_field_empty st : peek st (field []) = Some x00.
Proof. reflexivity. Qed.

(** When [xmlify] is handed the pointer it returned, it reads the array it
    writes.  The write position never falls behind the read position, so
    the loop may read bytes it has itself written. *)
Lemma bytes_at_nth l : forall st p i c,
  bytes_at st p l -> nth_error l i = Some c ->
  peek st (ptr_add p i) = Some c.
Proof.
  induction l as [|a l IH]; intros st p i c Hb Hi.
  - destruct i; discriminate.
  - destruct Hb as [H1 H2]. destruct i as [|i]; simpl in Hi.
    + injection Hi as <-. unfold ptr_add. rewrite Nat.add_0_r. now destruct p.
    + specialize (IH st (ptr_add p 1) i c H2 Hi).
      unfold ptr_add in *. simpl in IH.
      now replace (off p + S i) with (off p + 1 + i) by lia.
Qed.

Lemma peek_result st i c :
  peek st (mkptr Result i) = Some c -> result st i = c /\ i < sizeof_result.
Proof.
  unfold peek. simpl. destruct (i <? sizeof_result) eqn:E; [|discriminate].
  intros H. injection H as <-. split; [reflexivity | now apply Nat.ltb_lt].
Qed.

(** Reading back what [xmlify] wrote. *)
Lemma bytes_at_result l : forall st k,
  k + List.length l <= sizeof_result ->
  (forall j c, nth_error l j = Some c -> result st (k + j) = c) ->
  bytes_at st (mkptr Result k) l.
Proof.
  induction l as [|c l IH]; intros st k Hk Hall; simpl; [exact I|].
  simpl in Hk. split.
  - unfold peek. simpl blk. simpl off.
    assert (E : (k <? sizeof_result) = true) by (apply Nat.ltb_lt; lia).
    rewrite E. f_equal. rewrite <- (Hall 0 c eq_refl). f_equal. lia.
  - unfold ptr_add. simpl blk. simpl off. apply IH; [lia|].
    intros j d Hj. rewrite <- (Hall (S j) d Hj). f_equal. lia.
Qed.

Lemma bytes_at_buf l : forall st k,
  k + List.length l <= sizeof_buf ->
  (forall j c, nth_error l j = Some c -> buf st (k + j) = c) ->
  bytes_at st (mkptr Buf k) l.
Proof.
  induction l as [|c l IH]; intros st k Hk Hall; simpl; [exact I|].
  simpl in Hk. split.
  - unfold peek. simpl blk. simpl off.
    assert (E : (k <? sizeof_buf) = true) by (apply Nat.ltb_lt; lia).
    rewrite E. f_equal. rewrite <- (Hall 0 c eq_refl). f_equal. lia.
  - unfold ptr_add. simpl blk. simpl off. apply IH; [lia|].
    intros j d Hj. rewrite <- (Hall (S j) d Hj). f_equal. lia.
Qed.

(** Reading back a NUL-free string written at the start of [buf]. *)
Lemma string_at_buf st f out :
  buf st = upd (write_list f 0 out) (List.length out) x00 ->
  ~ In x00 out -> List.length out < sizeof_buf ->
  string_at st (mkptr Buf 0) = Some out.
Proof.
  intros Hb Hn Hl. unfold string_at. simpl blk. simpl off. rewrite Nat.sub_0_r.
  apply string_from_intro; auto.
  - apply bytes_at_buf; [simpl; lia|].
    intros j c Hj. simpl. rewrite Hb.
    assert (j < List.length out) by (apply nth_error_Some; congruence).
    rewrite upd_neq by lia.
    apply (write_list_at _ _ 0 _ _ Hj).
  - unfold peek, ptr_add. simpl blk. simpl off.
    apply Nat.ltb_lt in Hl. rewrite Hl. simpl. now rewrite Hb, upd_eq.
Qed.

(* ------------------------------------------------------------------ *)
(** ** Charset names *)

Lemma compare_refl (s : string) : String.compare s s = Eq.
Proof.
  pose proof (String.compare_antisym s s) as H.
  destruct (String.compare s s); simpl in H; congruence.
Qed.

Lemma strncmp_zero a b n :
  strncmp a b n = 0%Z <-> substring 0 n a = substring 0 n b.
Proof.
  unfold strncmp. split.
  - destruct (String.compare _ _) eqn:E; try discriminate.
    intros _. now apply String.compare_eq_iff.
  - intros ->. now rewrite compare_refl.
Qed.

(** A name shorter than the bound is not cut by it. *)
Lemma substring_short n : forall s t,
  substring 0 n s = t -> String.length t < n -> s = t.
Proof.
  induction n as [|n IH]; intros s t H Hl; [lia|].
  destruct s as [|c s]; simpl in H; [assumption|].
  subst t. simpl in Hl. f_equal. apply IH; [reflexivity | lia].
Qed.

Lemma substring_idem n : forall s,
  substring 0 n (substring 0 n s) = substring 0 n s.
Proof.
  induction n as [|n IH]; intros [|c s]; simpl; try reflexivity.
  f_equal. apply IH.
Qed.

Lemma substring_all n : forall s, String.length s <= n -> substring 0 n s = s.
Proof.
  induction n as [|n IH]; intros [|c s] H; simpl in *; try reflexivity; try lia.
  f_equal. apply IH. lia.
Qed.

(* ------------------------------------------------------------------ *)
(** ** The substitution table *)

Lemma entity_length c :
  1 <= List.length (Spec.xml_entity c) <= 6.
Proof. destruct c; simpl; lia. Qed.

Lemma entity_no_NUL c : c <> x00 -> ~ In x00 (Spec.xml_entity c).
Proof.
  intros Hc. destruct c; simpl; intuition congruence.
Qed.

Lemma escape_no_NUL s : ~ In x00 s -> ~ In x00 (Spec.escape s).
Proof.
  intros Hs H. unfold Spec.escape in H. apply in_flat_map in H.
  destruct H as (c & Hc & Hin). revert Hin. apply entity_no_NUL.
  intros ->. contradiction.
Qed.

Lemma escape_length s : List.length (Spec.escape s) <= 6 * List.length s.
Proof.
  induction s as [|c s IH]; simpl; [lia|].
  rewrite length_app. pose proof (entity_length c). lia.
Qed.

Lemma escape_app s t : Spec.escape (s ++ t) = Spec.escape s ++ Spec.escape t.
Proof. apply flat_map_app. Qed.

Lemma reports_app s t : reports (s ++ t) = reports s ++ reports t.
Proof. unfold reports. now rewrite filter_app, map_app. Qed.

(** Fields shorter than [MAX] always fit [result] once escaped. *)
Lemma escape_fits s :
  List.length s < MAX -> List.length (Spec.escape s) < sizeof_result.
Proof.
  intros H. pose proof (escape_length s). unfold sizeof_result. lia.
Qed.

Lemma plain_not_NUL c : plain c = true -> c <> x00.
Proof. intros H ->. discriminate. Qed.

Lemma entity_plain c :
  plain c = true ->
  Forall (fun d => plain d = true) (Spec.xml_entity c) /\
  List.length (Spec.xml_entity c) <= 5 /\
  (Spec.xml_entity c = [c] \/ 4 <= List.length (Spec.xml_entity c)) /\
  (c = "&"%byte -> List.length (Spec.xml_entity c) = 5).
Proof.
  intros H. destruct c; try discriminate H; simpl;
    (split; [repeat constructor|]);
    (split; [lia|]);
    (split; [first [left; reflexivity | right; lia]|]);
    intros; first [reflexivity | discriminate].
Qed.

Lemma escape_plain s : ~ In x00 s -> Forall (fun d => plain d = true) (Spec.escape s).
Proof.
  induction s as [|c s IH]; intros H; simpl; [constructor|].
  apply Forall_app. split.
  - assert (c <> x00) by (intros ->; apply H; now left).
    destruct c; try congruence; simpl; repeat constructor.
  - apply IH. intros Hin. apply H. now right.
Qed.

Lemma escape_keeps_amp s : In "&"%byte s -> In "&"%byte (Spec.escape s).
Proof.
  intros H. unfold Spec.escape. apply in_flat_map.
  exists "&"%byte. split; [assumption | now left].
Qed.

(* ------------------------------------------------------------------ *)
(** ** The loop of xmlify *)

(** [*r++ = c] inside [result]. *)
Lemma put_result k c st :
  k < sizeof_result ->
  put (mkptr Result k) c st =
  Returns (mkptr Result (k + 1)) (set_result (upd (result st) k c) st).
Proof.
  intros Hk. unfold put, bind, store, ret, ptr_add; simpl blk; simpl off.
  apply Nat.ltb_lt in Hk. now rewrite Hk.
Qed.

Lemma puts_result l : forall k st,
  k + List.length l <= sizeof_result ->
  puts (mkptr Result k) l st =
  Returns (mkptr Result (k + List.length l))
          (set_result (write_list (result st) k l) st).
Proof.
  induction l as [|c l IH]; intros k st Hk.
  - simpl. rewrite Nat.add_0_r. unfold ret. now destruct st.
  - destruct l as [|c' l].
    + simpl in *. rewrite put_result by lia. reflexivity.
    + change (puts (mkptr Result k) (c :: c' :: l))
        with (bind (put (mkptr Result k) c) (fun r' => puts r' (c' :: l))).
      unfold bind. simpl List.length in *. rewrite put_result by lia.
      rewrite IH by (simpl; lia).
      simpl List.length. f_equal; [f_equal; lia|].
      unfold set_result. simpl. now rewrite Nat.add_1_r.
Qed.

(** The [switch] writes the entity of the byte it reads, after reporting
    the byte when it is forbidden. *)
Lemma xmlify_switch_puts c b r st :
  peek st b = Some c ->
  xmlify_switch b r st =
  (if Spec.forbidden c
   then emit (forbidden_char c) ;;; puts r (Spec.xml_entity c)
   else puts r (Spec.xml_entity c)) st.
Proof.
  intros H. unfold xmlify_switch, bind, load. rewrite H.
  destruct c; reflexivity.
Qed.

(** One iteration, in terms of the state. *)
Lemma xmlify_switch_result c b k st :
  peek st b = Some c ->
  k + List.length (Spec.xml_entity c) <= sizeof_result ->
  xmlify_switch b (mkptr Result k) st =
  Returns (mkptr Result (k + List.length (Spec.xml_entity c)))
          (mkstate (buf st) (write_list (result st) k (Spec.xml_entity c))
                   (cs_old st) (cd st) (trace st ++ reports [c])).
Proof.
  intros Hc Hk. rewrite (xmlify_switch_puts _ _ _ _ Hc).
  unfold reports. simpl filter.
  destruct (Spec.forbidden c).
  - unfold bind, emit. rewrite puts_result by (simpl; exact Hk). reflexivity.
  - rewrite puts_result by exact Hk. simpl. now rewrite app_nil_r.
Qed.

(** The whole loop over a string [l] stored outside [result]. *)
Lemma xmlify_loop_result l : forall b k st,
  blk b <> Result ->
  bytes_at st b l ->
  k + List.length (Spec.escape l) <= sizeof_result ->
  xmlify_loop (List.length l) b (mkptr Result k) st =
  Returns (mkptr Result (k + List.length (Spec.escape l)))
          (mkstate (buf st) (write_list (result st) k (Spec.escape l))
                   (cs_old st) (cd st) (trace st ++ reports l)).
Proof.
  induction l as [|c l IH]; intros b k st Hb Hl Hk.
  - simpl. rewrite Nat.add_0_r, app_nil_r. unfold ret. now destruct st.
  - destruct Hl as [Hc Hl]. simpl Spec.escape in *. rewrite length_app in Hk.
    simpl xmlify_loop. unfold bind.
    rewrite (xmlify_switch_result _ _ _ _ Hc) by lia.
    rewrite IH; auto.
    + simpl. rewrite length_app, write_list_app.
      change (c :: l) with ([c] ++ l). rewrite reports_app, app_assoc.
      f_equal. f_equal. lia.
    + apply bytes_at_other_state with st; auto.
    + simpl. lia.
Qed.

Lemma string_at_xmlify_post st s :
  ~ In x00 s -> List.length (Spec.escape s) < sizeof_result ->
  string_at (xmlify_post st s) (mkptr Result 0) = Some (Spec.escape s).
Proof.
  intros Hn Hl. unfold string_at. simpl blk. simpl off. rewrite Nat.sub_0_r.
  apply string_from_intro.
  - apply bytes_at_result; [simpl; lia|].
    intros j c Hj. simpl.
    assert (j < List.length (Spec.escape s))
      by (apply nth_error_Some; congruence).
    rewrite upd_neq by lia.
    apply (write_list_at _ _ 0 _ _ Hj).
  - unfold peek, ptr_add. simpl blk. simpl off.
    apply Nat.ltb_lt in Hl. rewrite Hl. simpl. now rewrite upd_eq.
  - now apply escape_no_NUL.
  - unfold block_size. exact Hl.
Qed.

(** [xmlify] on any string stored outside [result]. *)
Lemma xmlify_correct st p s :
  blk p <> Result ->
  string_at st p = Some s ->
  List.length (Spec.escape s) < sizeof_result ->
  xmlify p st = Returns (mkptr Result 0) (xmlify_post st s).
Proof.
  intros Hp Hs Hl. destruct (string_at_inv _ _ _ Hs) as (Hb & _ & _).
  unfold xmlify, bind, strlen. rewrite Hs.
  rewrite (xmlify_loop_result _ _ _ _ Hp Hb) by (simpl; lia).
  unfold store. simpl blk. simpl off.
  apply Nat.ltb_lt in Hl. rewrite Hl. reflexivity.
Qed.

(** The scan ends at the first NUL: what lies behind it in memory is
    neither reported nor copied, so the [0x00] case label is never
    reached. *)
Lemma xmlify_stops_at_NUL (pre post : list byte) (st : state) :
  is_c_string pre = true ->
  List.length (Spec.escape pre) < sizeof_result ->
  xmlify (field (pre ++ x00 :: post)) st =
  Returns result_ptr (xmlify_post st pre).
Proof.
  intros Hs Hl. apply is_c_string_spec in Hs.
  apply xmlify_correct; auto; [discriminate|].
  unfold string_at, field. simpl blk. simpl off. rewrite Nat.sub_0_r.
  apply string_from_intro; auto.
  - pose proof (bytes_at_caller [] (pre ++ x00 :: post) st) as H.
    simpl in H. revert H. generalize (mkptr (Caller (pre ++ x00 :: post)) 0).
    clear. induction pre as [|c pre IH]; intros p H; simpl in *; [exact I|].
    destruct H as [H1 H2]. split; auto.
  - unfold peek, ptr_add. simpl blk. simpl off. cbv iota.
    rewrite <- app_assoc. rewrite nth_error_app2 by lia.
    now rewrite Nat.sub_diag.
  - unfold block_size. rewrite length_app. simpl. lia.
Qed.

(* ------------------------------------------------------------------ *)
(** ** xmlify on its own output *)

(** When [xmlify] is handed the pointer it returned, it reads the array it
    writes.  The write position never falls behind the read position, so
    the loop may read bytes it has itself written. *)

(** The loop, reading and writing [result]: [m] iterations from read
    position [j] and write position [k]. *)
Lemma xmlify_loop_aliased m : forall j k st,
  j <= k ->
  k + 5 * m <= sizeof_result ->
  (forall i, i < k \/ i < j + m -> plain (result st i) = true) ->
  exists k' st',
    xmlify_loop m (mkptr Result j) (mkptr Result k) st =
      Returns (mkptr Result k') st' /\
    k + m <= k' <= k + 5 * m /\
    (forall i, i < k' -> plain (result st' i) = true) /\
    (k = j -> (exists i, j <= i < j + m /\ result st i = "&"%byte) ->
     k + m < k').
Proof.
  induction m as [|m IH]; intros j k st Hjk Hcap Hplain.
  - exists k, st. simpl. repeat split; try lia.
    + intros i Hi. apply Hplain. now left.
    + intros _ (i & Hi & _). lia.
  - assert (Hj : j < sizeof_result) by lia.
    set (c := result st j).
    assert (Hc : peek st (mkptr Result j) = Some c).
    { unfold peek. simpl. apply Nat.ltb_lt in Hj. now rewrite Hj. }
    assert (Pc : plain c = true) by (apply Hplain; right; lia).
    destruct (entity_plain c Pc) as (Pe & Le & Ce & Ae).
    pose proof (entity_length c) as [Le1 _].
    simpl xmlify_loop. unfold bind.
    rewrite (xmlify_switch_result c _ k st Hc) by lia.
    unfold ptr_add. simpl blk. simpl off.
    set (len := List.length (Spec.xml_entity c)) in *.
    set (st1 := mkstate (buf st) (write_list (result st) k (Spec.xml_entity c))
                        (cs_old st) (cd st) (trace st ++ reports [c])).
    assert (R1 : forall i, result st1 i =
                 if i <? k then result st i
                 else if i <? k + len
                      then nth (i - k) (Spec.xml_entity c) x00
                      else result st i).
    { intros i. simpl. destruct (i <? k) eqn:E1.
      - apply Nat.ltb_lt in E1. now apply write_list_below.
      - apply Nat.ltb_ge in E1. destruct (i <? k + len) eqn:E2.
        + apply Nat.ltb_lt in E2.
          replace i with (k + (i - k)) at 1 by lia.
          apply write_list_at. apply nth_error_nth'. fold len. lia.
        + apply Nat.ltb_ge in E2. apply write_list_above. fold len. lia. }
    destruct (IH (j + 1) (k + len) st1) as (k' & st' & L & B & P & S); try lia.
    { intros i Hi. rewrite R1. destruct (i <? k) eqn:E1.
      - apply Hplain. left. now apply Nat.ltb_lt.
      - apply Nat.ltb_ge in E1. destruct (i <? k + len) eqn:E2.
        + apply Nat.ltb_lt in E2. rewrite Forall_forall in Pe.
          apply Pe. apply nth_In. fold len. lia.
        + apply Nat.ltb_ge in E2. apply Hplain. right. lia. }
    exists k', st'. split; [exact L|]. split; [lia|]. split; [exact P|].
    intros -> (i & Hi & Hamp).
    destruct Ce as [Ce|Ce]; [|fold len in Ce; lia].
    assert (L1 : len = 1) by (unfold len; now rewrite Ce).
    assert (i <> j).
    { intros ->. fold c in Hamp. specialize (Ae Hamp). fold len in Ae. lia. }
    rewrite L1 in *. enough (j + 1 + m < k') by lia.
    apply S; [reflexivity|].
    exists i. split; [lia|].
    rewrite R1. replace (i <? j) with false by (symmetry; apply Nat.ltb_ge; lia).
    replace (i <? j + 1) with false by (symmetry; apply Nat.ltb_ge; lia).
    exact Hamp.
Qed.

(** The second pass over [result], for any first input with an
    ampersand. *)
Lemma xmlify_again_longer (s : list byte) (st : state) :
  ~ In x00 s ->
  In "&"%byte s ->
  5 * List.length (Spec.escape s) < sizeof_result ->
  exists st2 again,
    xmlify result_ptr (xmlify_post st s) = Returns result_ptr st2 /\
    string_at st2 result_ptr = Some again /\
    List.length (Spec.escape s) < List.length again.
Proof.
  intros Hn Hamp Hcap.
  set (e := Spec.escape s) in *. set (st1 := xmlify_post st s).
  assert (Hs : string_at st1 result_ptr = Some e)
    by (apply string_at_xmlify_post; [assumption | fold e; lia]).
  destruct (string_at_inv _ _ _ Hs) as (Hb & _ & _).
  assert (Hr : forall i c, nth_error e i = Some c -> result st1 i = c).
  { intros i c Hi.
    pose proof (bytes_at_nth _ _ _ _ _ Hb Hi) as Hp.
    now apply peek_result in Hp. }
  pose proof (escape_plain s Hn) as He. fold e in He.
  rewrite Forall_forall in He.
  destruct (xmlify_loop_aliased (List.length e) 0 0 st1) as (k' & st' & L & B & P & S);
    try lia.
  { intros i [Hi|Hi]; [lia|]. simpl in Hi.
    destruct (nth_error e i) as [c|] eqn:Hc.
    - rewrite (Hr i c Hc). apply He. eapply nth_error_In; eauto.
    - apply nth_error_None in Hc. lia. }
  assert (Hlong : List.length e < k').
  { apply S; [reflexivity|].
    destruct (In_nth_error e "&"%byte (escape_keeps_amp s Hamp)) as (i & Hi).
    exists i. split.
    - assert (i < List.length e) by (apply nth_error_Some; congruence). lia.
    - now apply Hr. }
  set (st2 := set_result (upd (result st') k' x00) st').
  exists st2, (map (result st') (seq 0 k')).
  assert (Hk : k' < sizeof_result) by lia.
  split; [|split].
  - unfold xmlify, bind, strlen. rewrite Hs. unfold result_ptr in *.
    rewrite L. unfold store. cbn [blk off].
    apply Nat.ltb_lt in Hk. now rewrite Hk.
  - unfold string_at, result_ptr. cbn [blk off]. rewrite Nat.sub_0_r.
    apply string_from_intro.
    + apply bytes_at_result; [rewrite length_map, length_seq; simpl; lia|].
      intros j c Hj. simpl.
      assert (Hjk : j < k').
      { assert (Hb' : j < List.length (map (result st') (seq 0 k')))
          by (apply nth_error_Some; congruence).
        now rewrite length_map, length_seq in Hb'. }
      rewrite upd_neq by lia.
      rewrite nth_error_map, nth_error_seq in Hj.
      apply Nat.ltb_lt in Hjk. rewrite Hjk in Hj. simpl in Hj. congruence.
    + rewrite length_map, length_seq. unfold peek, ptr_add. cbn [blk off].
      rewrite Nat.add_0_l.
      apply Nat.ltb_lt in Hk. rewrite Hk. simpl. now rewrite upd_eq.
    + intros Hin. apply in_map_iff in Hin. destruct Hin as (j & Hj & Hin).
      apply in_seq in Hin. apply (plain_not_NUL _ (P j ltac:(lia))). exact Hj.
    + rewrite length_map, length_seq. unfold block_size. exact Hk.
  - now rewrite length_map, length_seq.
Qed.

(* ------------------------------------------------------------------ *)
(** ** The XML Escaper *)

(** C1 - For every byte sequence [s] that is a C string (and whose image
    fits [result]), [xmlify] returns [result], holding the byte-wise
    left-to-right image of [s]: the quote, ampersand, less-than and
    greater-than bytes replaced by their named entities, every other byte
    copied unchanged, in input order. *)
Theorem xmlify_escapes_entities (s : list byte) (st : state) :
  is_c_string s = true ->
  List.length (Spec.escape s) < sizeof_result ->
  exists st',
    xmlify (field s) st = Returns result_ptr st' /\
    string_at st' result_ptr = Some (Spec.escape s).
Proof.
  intros Hs Hl. apply is_c_string_spec in Hs.
  exists (xmlify_post st s). split.
  - apply xmlify_correct; auto; [discriminate | now apply string_at_caller].
  - now apply string_at_xmlify_post.
Qed.

Lemma xmlify_escapes_entities_witness :
  is_c_string sample_markup = true /\
  List.length (Spec.escape sample_markup) < sizeof_result /\
  exists st',
    xmlify (field sample_markup) initial_state = Returns result_ptr st' /\
    string_at st' result_ptr =
    Some (list_byte_of_string "&quot;&amp;&lt;&gt;a").
Proof.
  split; [reflexivity|]. split; [apply Nat.ltb_lt; reflexivity|].
  apply (xmlify_escapes_entities sample_markup initial_state).
  - reflexivity.
  - apply Nat.ltb_lt. reflexivity.
Defined.

(** C2, as the code has it - For every input string and every occurrence
    in it of a forbidden control byte (0x01-0x08, 0x0B-0x1F, 0x7F),
    [xmlify] reports that byte to the log, at its place among the reports
    of the other bytes, and still copies it unchanged into the output,
    between the images of what precedes and what follows it.  A 0x00 byte
    is the terminator: the scan stops in front of it, so neither it nor
    anything behind it is reported or copied. *)
Theorem xmlify_reports_and_keeps_forbidden
    (pre post : list byte) (c : byte) (st : state) :
  (Spec.forbidden c = true ->
   is_c_string (pre ++ c :: post) = true ->
   List.length (Spec.escape (pre ++ c :: post)) < sizeof_result ->
   exists st',
     xmlify (field (pre ++ c :: post)) st = Returns result_ptr st' /\
     string_at st' result_ptr = Some (Spec.escape pre ++ c :: Spec.escape post) /\
     trace st' = trace st ++ reports pre ++ forbidden_char c :: reports post) /\
  (is_c_string pre = true ->
   List.length (Spec.escape pre) < sizeof_result ->
   exists st',
     xmlify (field (pre ++ x00 :: post)) st = Returns result_ptr st' /\
     string_at st' result_ptr = Some (Spec.escape pre) /\
     trace st' = trace st ++ reports pre).
Proof.
  split.
  - intros Hc Hs Hl. apply is_c_string_spec in Hs.
    exists (xmlify_post st (pre ++ c :: post)). split; [|split].
    + apply xmlify_correct; auto; [discriminate | now apply string_at_caller].
    + rewrite string_at_xmlify_post by auto. f_equal.
      rewrite escape_app. f_equal. simpl.
      destruct c; try discriminate Hc; reflexivity.
    + simpl. f_equal. rewrite reports_app. f_equal.
      unfold reports. simpl. now rewrite Hc.
  - intros Hs Hl. exists (xmlify_post st pre). split; [|split].
    + now apply xmlify_stops_at_NUL.
    + apply is_c_string_spec in Hs. now apply string_at_xmlify_post.
    + reflexivity.
Qed.

Lemma xmlify_reports_and_keeps_forbidden_witness :
  (Spec.forbidden x07 = true /\
   is_c_string sample_bell = true /\
   List.length (Spec.escape sample_bell) < sizeof_result /\
   exists st',
     xmlify (field sample_bell) initial_state = Returns result_ptr st' /\
     string_at st' result_ptr =
     Some (list_byte_of_string "a&lt;" ++ x07 :: list_byte_of_string "&gt;b") /\
     trace st' = [forbidden_char x07]) /\
  (is_c_string (list_byte_of_string "a<") = true /\
   List.length (Spec.escape (list_byte_of_string "a<")) < sizeof_result /\
   exists st',
     xmlify (field (list_byte_of_string "a<" ++ x00 :: list_byte_of_string ">b"))
            initial_state = Returns result_ptr st' /\
     string_at st' result_ptr = Some (list_byte_of_string "a&lt;") /\
     trace st' = []).
Proof.
  assert (H1 : Spec.forbidden x07 = true) by reflexivity.
  assert (H2 : is_c_string sample_bell = true) by reflexivity.
  assert (H3 : List.length (Spec.escape sample_bell) < sizeof_result)
    by (apply Nat.ltb_lt; reflexivity).
  assert (H4 : is_c_string (list_byte_of_string "a<") = true) by reflexivity.
  assert (H5 : List.length (Spec.escape (list_byte_of_string "a<")) < sizeof_result)
    by (apply Nat.ltb_lt; reflexivity).
  split.
  - split; [exact H1|]. split; [exact H2|]. split; [exact H3|].
    exact (proj1 (xmlify_reports_and_keeps_forbidden
                    (list_byte_of_string "a<") (list_byte_of_string ">b")
                    x07 initial_state) H1 H2 H3).
  - split; [exact H4|]. split; [exact H5|].
    exact (proj2 (xmlify_reports_and_keeps_forbidden
                    (list_byte_of_string "a<") (list_byte_of_string ">b")
                    x07 initial_state) H4 H5).
Defined.

(** C2, as stated, fails on the memory [a 00 b]: the 0x00 byte, in the
    forbidden range, is neither reported nor copied; the output is [a]
    and the log stays empty. *)
Lemma xmlify_drops_NUL :
  Spec.forbidden x00 = true /\
  In x00 sample_nul /\
  exists st',
    xmlify (field sample_nul) initial_state = Returns result_ptr st' /\
    string_at st' result_ptr = Some (list_byte_of_string "a") /\
    trace st' = [] /\
    trace st' <> reports sample_nul.
Proof.
  split; [reflexivity|]. split; [right; left; reflexivity|].
  eexists.
  split; [vm_compute; reflexivity|].
  split; [vm_compute; reflexivity|].
  split; [reflexivity|]. discriminate.
Qed.

(** C10 - Escaping is not idempotent.  For the input [&], [xmlify] leaves
    [&amp;] in [result]; applied to that output, the pointer it returned,
    it leaves [&amp;amp;]: the ampersand of the emitted entity has been
    escaped again.  The same holds for every input string with an
    ampersand: the second pass returns a longer string than the first. *)
Theorem xmlify_not_idempotent :
  (exists s : list byte,
     In "&"%byte s /\
     forall st, exists st1 st2,
       xmlify (field s) st = Returns result_ptr st1 /\
       string_at st1 result_ptr = Some (list_byte_of_string "&amp;") /\
       xmlify result_ptr st1 = Returns result_ptr st2 /\
       string_at st2 result_ptr = Some (list_byte_of_string "&amp;amp;") /\
       string_at st2 result_ptr <> string_at st1 result_ptr) /\
  (forall (s : list byte) (st : state),
     is_c_string s = true ->
     In "&"%byte s ->
     5 * List.length (Spec.escape s) < sizeof_result ->
     exists st1 st2 again,
       xmlify (field s) st = Returns result_ptr st1 /\
       string_at st1 result_ptr = Some (Spec.escape s) /\
       xmlify result_ptr st1 = Returns result_ptr st2 /\
       string_at st2 result_ptr = Some again /\
       List.length (Spec.escape s) < List.length again /\
       string_at st2 result_ptr <> string_at st1 result_ptr).
Proof.
  split.
  - exists sample_amp. split; [now left|].
    intros st. eexists. eexists.
    split; [vm_compute; reflexivity|].
    split; [vm_compute; reflexivity|].
    split; [vm_compute; reflexivity|].
    split; [vm_compute; reflexivity|].
    vm_compute. discriminate.
  - intros s st Hs Hamp Hcap. apply is_c_string_spec in Hs.
    destruct (xmlify_again_longer s st Hs Hamp Hcap) as (st2 & again & X & A & L).
    exists (xmlify_post st s), st2, again.
    assert (H1 : string_at (xmlify_post st s) result_ptr = Some (Spec.escape s))
      by (apply string_at_xmlify_post; [assumption | lia]).
    split; [|split; [exact H1|split; [exact X|split; [exact A|split; [exact L|]]]]].
    + apply xmlify_correct; [discriminate | now apply string_at_caller | lia].
    + rewrite A, H1. intros E. injection E as E. rewrite E in L. lia.
Qed.

Lemma xmlify_not_idempotent_witness :
  is_c_string sample_amp = true /\
  In "&"%byte sample_amp /\
  5 * List.length (Spec.escape sample_amp) < sizeof_result /\
  exists st1 st2 again,
    xmlify (field sample_amp) initial_state = Returns result_ptr st1 /\
    xmlify result_ptr st1 = Returns result_ptr st2 /\
    string_at st2 result_ptr = Some again /\
    string_at st2 result_ptr <> string_at st1 result_ptr.
Proof.
  assert (H1 : is_c_string sample_amp = true) by reflexivity.
  assert (H2 : In "&"%byte sample_amp) by (left; reflexivity).
  assert (H3 : 5 * List.length (Spec.escape sample_amp) < sizeof_result)
    by (apply Nat.ltb_lt; reflexivity).
  split; [exact H1|]. split; [exact H2|]. split; [exact H3|].
  destruct (proj2 xmlify_not_idempotent sample_amp initial_state H1 H2 H3)
    as (st1 & st2 & again & A & _ & B & C & _ & D).
  exists st1, st2, again. repeat split; assumption.
Defined.

(* ------------------------------------------------------------------ *)
(** ** The Encoding Resolver *)

(** A fixed selector resolves to the name in its slot and advances [s]
    by one byte. *)
Lemma resolve_fixed_slot (b0 : byte) (rest : list byte) (st : state) :
  Spec.fixed_selector b0 = true ->
  exists name,
    encoding (Byte.to_nat b0) = mkentry (Some encoding_fixed) (Some name) /\
    convert_text_resolve (field (b0 :: rest)) st =
      Returns (mkresolved (Byte.to_nat b0) false (Some name)
                          (mkptr (Caller (b0 :: rest)) 1)) st.
Proof.
  intros H. unfold convert_text_resolve, bind, load.
  rewrite peek_field_head.
  destruct b0; try discriminate H; eexists; split; reflexivity.
Qed.

(** Every reserved selector fails, logging the selector. *)
Lemma resolve_reserved_slot (p : cptr) (b0 : byte) (st : state) :
  peek st p = Some b0 ->
  Spec.reserved_selector b0 = true ->
  convert_text_resolve p st =
    Returns (mkresolved (Byte.to_nat b0) true None p)
            (add_trace [reserved_encoding b0] st).
Proof.
  intros Hp H. unfold convert_text_resolve, bind, load. rewrite Hp.
  destruct b0; try discriminate H;
    cbn -[add_trace]; unfold bind, load, subscript, ret, emit; cbn -[add_trace];
    rewrite ?Hp; reflexivity.
Qed.

Lemma observed_reserved (r : resolved) (st : state) (c : byte) :
  r_failed r = true ->
  observed_resolution (Returns r (add_trace [reserved_encoding c] st)) =
  Some (inl (Spec.UnsupportedEncoding c)).
Proof.
  intros H. unfold observed_resolution. rewrite H.
  unfold add_trace. simpl trace. now rewrite last_last.
Qed.

(** What [encoding_variable] does when the two objects behind the one [s]
    points to happen to be readable pointers: the index is made of the
    first bytes of the strings those two pointers designate, whatever the
    field [s[0]] holds. *)
Lemma encoding_variable_reads_neighbours
    (t : option string) (p0 p1 p2 : cptr) (c1 c2 : byte) (fmt : string)
    (st : state) :
  peek st p1 = Some c1 ->
  peek st p2 = Some c2 ->
  encoding_variable t [p0; p1; p2] (Some fmt) st =
  Returns (0%Z,
           Some (snprintf 16 fmt
                   (Z.shiftl (Z.of_N (Byte.to_N c1)) 8 + Z.of_N (Byte.to_N c2))%Z),
           [ptr_add p0 3; p1; p2]) st.
Proof.
  intros H1 H2. unfold encoding_variable, bind, subscript, load, ret. simpl.
  now rewrite H1, H2.
Qed.

(** Except for the variable selector 0x10, the encoding stage answers on a
    non-empty field what the specification's resolver answers. *)
Lemma resolve_agrees_with_spec (b0 : byte) (rest : list byte) (st : state) :
  b0 <> x10 ->
  observed_resolution (convert_text_resolve (field (b0 :: rest)) st) =
  Some (Spec.resolve (b0 :: rest)).
Proof.
  intros H. destruct b0; try congruence; clear H;
    cbv [convert_text_resolve bind load]; rewrite peek_field_head;
    (cbn -[add_trace last];
     unfold bind, load, subscript, ret, emit; cbn -[last];
     rewrite ?last_last; reflexivity).
Qed.

(** C4 - For every input whose first byte is at least 0x1F, the 0x1F case
    included (its table slot holds the Freesat handler, but the range test
    [i < 0x1F] keeps it from being looked up), resolution returns the
    default charset [ISO6937] and leaves [s] where it was: content offset
    0, the first byte is content.  Nothing is logged or changed. *)
Theorem resolve_default (b0 : byte) (rest : list byte) (st : state) :
  0x1F <= Byte.to_nat b0 ->
  convert_text_resolve (field (b0 :: rest)) st =
    Returns (mkresolved (Byte.to_nat b0) false (Some "ISO6937")
                        (mkptr (Caller (b0 :: rest)) 0)) st /\
  observed_resolution (convert_text_resolve (field (b0 :: rest)) st) =
    Some (inr ("ISO6937", 0)) /\
  handler (encoding 0x1F) = Some encoding_freesat.
Proof.
  intros H.
  assert (E : convert_text_resolve (field (b0 :: rest)) st =
              Returns (mkresolved (Byte.to_nat b0) false (Some "ISO6937")
                                  (mkptr (Caller (b0 :: rest)) 0)) st).
  { unfold convert_text_resolve, bind, load. rewrite peek_field_head.
    apply Nat.ltb_ge in H. rewrite H. reflexivity. }
  rewrite E. repeat split.
Qed.

Lemma resolve_default_witness :
  0x1F <= Byte.to_nat x1f /\
  convert_text_resolve (field (x1f :: list_byte_of_string "Hi")) initial_state =
    Returns (mkresolved 0x1F false (Some "ISO6937")
                        (mkptr (Caller (x1f :: list_byte_of_string "Hi")) 0))
            initial_state.
Proof.
  split; [simpl; lia|].
  apply (resolve_default x1f (list_byte_of_string "Hi") initial_state).
  simpl; lia.
Defined.

(* ------------------------------------------------------------------ *)
(** ** The Charset Converter and the pipeline *)

Section Pipeline.

Context {E : Collaborators}.

Lemma open_hit (name : string) (st : state) :
  strncmp (cs_old st) name 16 = 0%Z ->
  convert_text_open (Some name) st = Returns tt st.
Proof.
  intros H. unfold convert_text_open, bind, get. now rewrite H.
Qed.

Lemma open_miss (name : string) (st : state) :
  strncmp (cs_old st) name 16 <> 0%Z ->
  convert_text_open (Some name) st =
  if (iconv_open "UTF-8" name =? iconv_failed)%Z
  then Exits 1 (reopened st name (cs_old st)
                  (closes st ++ [call_iconv_open "UTF-8" name; iconv_open_failed]))
  else Returns tt (reopened st name (strncpy name 16)
                     (closes st ++ [call_iconv_open "UTF-8" name])).
Proof.
  intros H. apply Z.eqb_neq in H.
  unfold convert_text_open, bind, get. rewrite H.
  unfold closes, reopened.
  destruct (cd st =? NULL)%Z;
    unfold ret, emit, modify, exit, bind; simpl;
    destruct (iconv_open "UTF-8" name =? iconv_failed)%Z;
    unfold add_trace, set_cd, set_cs_old, iconv_open_failed; simpl;
    rewrite <- ?app_assoc; reflexivity.
Qed.

Lemma iconv_step (s : cptr) (inbytes : list byte) (st : state) :
  string_at st s = Some inbytes ->
  List.length (iconv (cd st) inbytes sizeof_buf) < sizeof_buf ->
  convert_text_iconv s st = Returns tt (converted st inbytes).
Proof.
  intros Hs Hl. unfold convert_text_iconv, bind, read_string. rewrite Hs.
  unfold get, emit, modify, store, converted. cbn [blk off].
  rewrite firstn_all2 by lia.
  apply Nat.ltb_lt in Hl. rewrite Hl. reflexivity.
Qed.

Lemma string_at_converted (st : state) (inbytes out : list byte) :
  iconv (cd st) inbytes sizeof_buf = out ->
  ~ In x00 out -> List.length out < sizeof_buf ->
  string_at (converted st inbytes) (mkptr Buf 0) = Some out.
Proof.
  intros Ho Hn Hl.
  apply string_at_buf with (f := buf st); auto.
  unfold converted. rewrite Ho. rewrite firstn_all2 by lia. reflexivity.
Qed.

(** The invariant of the Conversion State is kept by a reopening. *)
Lemma open_keeps_cache_ok (name : string) (st st' : state) :
  String.length name <= 16 ->
  cache_ok st ->
  convert_text_open (Some name) st = Returns tt st' ->
  cache_ok st'.
Proof.
  intros Hn Hok H.
  destruct (Z.eq_dec (strncmp (cs_old st) name 16) 0) as [Hit|Miss].
  - rewrite open_hit in H by assumption. now injection H as <-.
  - rewrite open_miss in H by assumption.
    destruct (iconv_open "UTF-8" name =? iconv_failed)%Z eqn:F; [discriminate|].
    injection H as <-. right. unfold reopened, strncpy. simpl.
    rewrite substring_all by assumption.
    split; [reflexivity|]. now apply Z.eqb_neq.
Qed.

(** On a cache hit for a short name the handle in [cd] is the one the
    engine gives out for that name. *)
Lemma hit_handle (name : string) (st : state) :
  String.length name < 16 ->
  name <> EmptyString ->
  cache_ok st ->
  strncmp (cs_old st) name 16 = 0%Z ->
  cd st = iconv_open "UTF-8" name.
Proof.
  intros Hl Hne Hok Hit. apply strncmp_zero in Hit.
  rewrite (substring_all 16 name) in Hit by lia.
  apply substring_short in Hit; [|assumption].
  destruct Hok as [[H _]|[H _]]; congruence.
Qed.

(** The pipeline behind a successful resolution that is not the Freesat
    case. *)
Lemma convert_text_resolved (p : cptr) (r : resolved) (st st1 : state) :
  convert_text_resolve p st = Returns r st1 ->
  convert_text p st =
  (if r_failed r then ret empty_literal
   else
     s <- (if r_i r =? 0x1F then convert_text_freesat (r_s r)
           else ret (r_s r)) ;;
     convert_text_open (r_cs_new r) ;;;
     convert_text_iconv s ;;;
     xmlify (mkptr Buf 0)) st1.
Proof.
  intros H. unfold convert_text at 1. unfold bind at 1. now rewrite H.
Qed.

(** C9 - The charset cache.  A conversion that requests the cached name
    (as [strncmp] on 16 bytes sees it) leaves the state as it is: nothing
    is closed or opened.  A conversion that requests another name closes
    the existing handle, if there is one, and calls [iconv_open] exactly
    once; when that call fails the process exits with the cached name
    untouched, and only when it succeeds does the cached name become the
    new one.  After a conversion that returned, the cache holds the name
    it requested: the same request again is a hit. *)
Theorem charset_cache (name : string) (st : state) :
  (strncmp (cs_old st) name 16 = 0%Z ->
   convert_text_open (Some name) st = Returns tt st) /\
  (strncmp (cs_old st) name 16 <> 0%Z ->
   let failed := (iconv_open "UTF-8" name =? iconv_failed)%Z in
   exists st',
     convert_text_open (Some name) st =
       (if failed then Exits 1 st' else Returns tt st') /\
     trace st' = trace st ++ closes st ++ call_iconv_open "UTF-8" name ::
                 (if failed then [iconv_open_failed] else []) /\
     closes st = (if (cd st =? NULL)%Z then [] else [call_iconv_close (cd st)]) /\
     count is_open (trace st') = count is_open (trace st) + 1 /\
     count is_close (trace st') =
       count is_close (trace st) + List.length (closes st) /\
     cd st' = iconv_open "UTF-8" name /\
     cs_old st' = (if failed then cs_old st else strncpy name 16)) /\
  (forall st1,
   convert_text_open (Some name) st = Returns tt st1 ->
   strncmp (cs_old st1) name 16 = 0%Z /\
   convert_text_open (Some name) st1 = Returns tt st1).
Proof.
  split; [apply open_hit|]. split; cycle 1.
  { intros st1 H.
    assert (C : strncmp (cs_old st1) name 16 = 0%Z).
    { destruct (Z.eq_dec (strncmp (cs_old st) name 16) 0) as [Hit|Miss].
      - rewrite open_hit in H by assumption. now injection H as <-.
      - rewrite open_miss in H by assumption.
        destruct (iconv_open "UTF-8" name =? iconv_failed)%Z; [discriminate|].
        injection H as <-. apply strncmp_zero. simpl.
        apply substring_idem. }
    split; [exact C | now apply open_hit]. }
  intros Miss failed. rewrite (open_miss name st Miss). fold failed.
  assert (Hc : count is_open (closes st) = 0 /\
               count is_close (closes st) = List.length (closes st)).
  { unfold closes. destruct (cd st =? NULL)%Z; split; reflexivity. }
  destruct Hc as [Hc1 Hc2].
  destruct failed; eexists; (split; [reflexivity|]);
    unfold reopened, count in *; simpl;
    rewrite !filter_app, !length_app; simpl; rewrite Hc1, Hc2;
    repeat split; try reflexivity; lia.
Qed.

(** C7 - For every input whose first byte is a reserved selector (0x00,
    0x0C-0x0F, 0x16-0x1E), the encoding stage fails, the only effect being
    the warning that carries that byte, and [convert_text] returns the
    empty string: it returns, it does not exit. *)
Theorem reserved_selector_fails (b0 : byte) (rest : list byte) (st : state) :
  Spec.reserved_selector b0 = true ->
  convert_text_resolve (field (b0 :: rest)) st =
    Returns (mkresolved (Byte.to_nat b0) true None (field (b0 :: rest)))
            (add_trace [reserved_encoding b0] st) /\
  observed_resolution (convert_text_resolve (field (b0 :: rest)) st) =
    Some (inl (Spec.UnsupportedEncoding b0)) /\
  convert_text (field (b0 :: rest)) st =
    Returns empty_literal (add_trace [reserved_encoding b0] st) /\
  string_at (add_trace [reserved_encoding b0] st) empty_literal = Some [].
Proof.
  intros H.
  pose proof (resolve_reserved_slot (field (b0 :: rest)) b0 st
                (peek_field_head st b0 rest) H) as R.
  split; [exact R|]. split; [|split].
  - rewrite R. now apply observed_reserved.
  - now rewrite (convert_text_resolved _ _ _ _ R).
  - reflexivity.
Qed.

(** C8, as the code has it - An empty raw field is not told apart from a
    field that starts with the reserved selector 0x00: the byte read at
    [s[0]] is the terminating NUL, its slot is reserved, the warning
    carries 0x00 and [convert_text] returns the empty string.  The code
    has no length check and no error of its own for short input. *)
Theorem empty_field_is_reserved (st : state) :
  convert_text_resolve (field []) st =
    Returns (mkresolved 0 true None (field []))
            (add_trace [reserved_encoding x00] st) /\
  observed_resolution (convert_text_resolve (field []) st) =
    Some (inl (Spec.UnsupportedEncoding x00)) /\
  convert_text (field []) st =
    Returns empty_literal (add_trace [reserved_encoding x00] st) /\
  (forall rest, convert_text (field (x00 :: rest)) st = convert_text (field []) st).
Proof.
  pose proof (resolve_reserved_slot (field []) x00 st
                (peek_field_empty st) eq_refl) as R.
  split; [exact R|]. split; [|split].
  - rewrite R. now apply observed_reserved.
  - now rewrite (convert_text_resolved _ _ _ _ R).
  - intros rest.
    pose proof (resolve_reserved_slot (field (x00 :: rest)) x00 st
                  (peek_field_head st x00 rest) eq_refl) as R0.
    rewrite (convert_text_resolved _ _ _ _ R0).
    now rewrite (convert_text_resolved _ _ _ _ R).
Qed.

(** C5, on the code - With the variable selector 0x10 the handler indexes
    [s] itself, not the field: [s[1]] lies outside the one-pointer object
    whose address [convert_text] passes, so the call has undefined
    behaviour, whatever follows the selector.  The specification's
    resolver yields [ISO-8859-5] with offset 3 for [10 00 05 'A']. *)
Theorem variable_selector_undefined (rest : list byte) (st : state) :
  convert_text_resolve (field (x10 :: rest)) st = Undefined /\
  convert_text (field (x10 :: rest)) st = Undefined /\
  Spec.resolve (x10 :: x00 :: x05 :: list_byte_of_string "A") =
    inr ("ISO-8859-5", 3).
Proof.
  assert (R : convert_text_resolve (field (x10 :: rest)) st = Undefined)
    by reflexivity.
  split; [exact R|]. split; [|reflexivity].
  unfold convert_text, bind. now rewrite R.
Qed.

(** C3, as the code has it - When the first byte is 0x1F the encoding
    stage resolves the default charset and leaves [s] unadvanced; the
    Freesat decoder is then called on the whole string, selector byte
    included; and its output goes through the Charset Converter like any
    other content, under the default name: the handle is reopened if the
    cached name differs, [iconv] runs on the decoder's output, and it is
    [buf], the engine's output, that [xmlify] escapes. *)
Theorem freesat_output_is_converted (rest : list byte) (st : state) :
  let z := x1f :: c_string_of rest in
  let decoded := freesat_huffman_to_string z (List.length z) in
  convert_text_resolve (field (x1f :: rest)) st =
    Returns (mkresolved 0x1F false (Some "ISO6937") (field (x1f :: rest))) st /\
  convert_text (field (x1f :: rest)) st =
    (emit (call_freesat_huffman_to_string z (List.length z)) ;;;
     convert_text_open (Some "ISO6937") ;;;
     convert_text_iconv (field decoded) ;;;
     xmlify (mkptr Buf 0)) st.
Proof.
  intros z decoded.
  assert (R : convert_text_resolve (field (x1f :: rest)) st =
              Returns (mkresolved 0x1F false (Some "ISO6937")
                                  (field (x1f :: rest))) st) by reflexivity.
  split; [exact R|].
  rewrite (convert_text_resolved _ _ _ _ R).
  cbn [r_failed r_i r_cs_new r_s Nat.eqb].
  unfold convert_text_freesat, bind at 1 2, read_string.
  rewrite string_at_field.
  change (c_string_of (x1f :: rest)) with z.
  reflexivity.
Qed.

(** C6 - Every fixed selector (0x01-0x0B, 0x11-0x15) resolves to the
    name in its table slot, with [s] advanced by one byte: content offset
    1.  In particular [01 'H' 'i'] resolves to [ISO-8859-5] with offset 1,
    and when the engine maps the content [Hi] to [Hi] under that charset
    the pipeline returns [Hi]. *)
Theorem fixed_selector_resolves (b0 : byte) (rest : list byte) (st : state) :
  (Spec.fixed_selector b0 = true ->
   exists name,
     encoding (Byte.to_nat b0) = mkentry (Some encoding_fixed) (Some name) /\
     convert_text_resolve (field (b0 :: rest)) st =
       Returns (mkresolved (Byte.to_nat b0) false (Some name)
                           (mkptr (Caller (b0 :: rest)) 1)) st /\
     observed_resolution (convert_text_resolve (field (b0 :: rest)) st) =
       Some (inr (name, 1))) /\
  (cache_ok st ->
   iconv_open "UTF-8" "ISO-8859-5" <> iconv_failed ->
   iconv (iconv_open "UTF-8" "ISO-8859-5") sample_Hi sizeof_buf = sample_Hi ->
   observed_resolution (convert_text_resolve (field sample_fixed) st) =
     Some (inr ("ISO-8859-5", 1)) /\
   exists st',
     convert_text (field sample_fixed) st = Returns result_ptr st' /\
     string_at st' result_ptr = Some sample_Hi).
Proof.
  split.
  - intros H. destruct (resolve_fixed_slot b0 rest st H) as (name & T & R).
    exists name. split; [exact T|]. split; [exact R|]. now rewrite R.
  - intros Hok Hopen Hconv. split; [reflexivity|].
    set (h := iconv_open "UTF-8" "ISO-8859-5") in *.
    assert (R : convert_text_resolve (field sample_fixed) st =
                Returns (mkresolved 1 false (Some "ISO-8859-5")
                                    (mkptr (Caller sample_fixed) 1)) st)
      by reflexivity.
    rewrite (convert_text_resolved _ _ _ _ R).
    cbn [r_failed r_i r_cs_new r_s Nat.eqb].
    (* the state after the handle was looked after *)
    assert (O : exists st1,
               convert_text_open (Some "ISO-8859-5") st = Returns tt st1 /\
               cd st1 = h).
    { destruct (Z.eq_dec (strncmp (cs_old st) "ISO-8859-5" 16) 0) as [Hit|Miss].
      - exists st. split; [now apply open_hit|].
        apply hit_handle; auto; [simpl; lia | discriminate].
      - rewrite (open_miss _ _ Miss). fold h.
        apply Z.eqb_neq in Hopen. rewrite Hopen.
        eexists. split; reflexivity. }
    destruct O as (st1 & O & Hcd).
    unfold bind at 1. unfold ret at 1. unfold bind at 1. rewrite O.
    unfold bind at 1.
    assert (S1 : string_at st1 (mkptr (Caller sample_fixed) 1) = Some sample_Hi)
      by reflexivity.
    assert (L : List.length sample_Hi < sizeof_buf)
      by (apply Nat.ltb_lt; reflexivity).
    rewrite (iconv_step _ _ _ S1) by (rewrite Hcd, Hconv; exact L).
    assert (S2 : string_at (converted st1 sample_Hi) (mkptr Buf 0) = Some sample_Hi).
    { apply string_at_converted; [now rewrite Hcd | | exact L].
      simpl. intuition discriminate. }
    exists (xmlify_post (converted st1 sample_Hi) sample_Hi). split.
    + apply xmlify_correct; [discriminate | exact S2 |].
      apply Nat.ltb_lt. reflexivity.
    + apply (string_at_xmlify_post _ sample_Hi).
      * simpl. intuition discriminate.
      * apply Nat.ltb_lt. reflexivity.
Qed.

End Pipeline.

(* ------------------------------------------------------------------ *)
(** ** Concrete runs *)

Lemma charset_cache_witness :
  strncmp (cs_old warm_state) "ISO6937" 16 = 0%Z /\
  convert_text_open (E := copying_engine) (Some "ISO6937") warm_state =
    Returns tt warm_state /\
  strncmp (cs_old warm_state) "ISO-8859-5" 16 <> 0%Z /\
  exists st',
    convert_text_open (E := copying_engine) (Some "ISO-8859-5") warm_state =
      Returns tt st' /\
    trace st' = trace warm_state ++
                [call_iconv_close 7%Z; call_iconv_open "UTF-8" "ISO-8859-5"] /\
    cs_old st' = "ISO-8859-5".
Proof.
  assert (Hit : strncmp (cs_old warm_state) "ISO6937" 16 = 0%Z) by reflexivity.
  assert (Miss : strncmp (cs_old warm_state) "ISO-8859-5" 16 <> 0%Z)
    by (apply Z.eqb_neq; reflexivity).
  split; [exact Hit|]. split.
  - exact (proj1 (charset_cache (E := copying_engine) "ISO6937" warm_state) Hit).
  - split; [exact Miss|].
    destruct (proj1 (proj2 (charset_cache (E := copying_engine) "ISO-8859-5"
                                          warm_state))
                    Miss) as (st' & R & T & _ & _ & _ & _ & N).
    exists st'. split; [exact R|]. split; [exact T | exact N].
Defined.

Lemma reserved_selector_fails_witness :
  Spec.reserved_selector x0c = true /\
  convert_text (E := copying_engine) (field [x0c]) initial_state =
    Returns empty_literal (add_trace [reserved_encoding x0c] initial_state).
Proof.
  split; [reflexivity|].
  apply (@reserved_selector_fails copying_engine x0c [] initial_state).
  reflexivity.
Defined.

Lemma fixed_selector_resolves_witness :
  (Spec.fixed_selector x01 = true /\
   exists name,
     encoding (Byte.to_nat x01) = mkentry (Some encoding_fixed) (Some name) /\
     convert_text_resolve (field sample_fixed) initial_state =
       Returns (mkresolved (Byte.to_nat x01) false (Some name)
                           (mkptr (Caller sample_fixed) 1)) initial_state /\
     observed_resolution (convert_text_resolve (field sample_fixed) initial_state) =
       Some (inr (name, 1))) /\
  (cache_ok (E := copying_engine) initial_state /\
   iconv_open (Collaborators := copying_engine) "UTF-8" "ISO-8859-5"
     <> iconv_failed /\
   iconv (Collaborators := copying_engine)
         (iconv_open (Collaborators := copying_engine) "UTF-8" "ISO-8859-5")
         sample_Hi sizeof_buf = sample_Hi /\
   observed_resolution (convert_text_resolve (field sample_fixed) initial_state) =
     Some (inr ("ISO-8859-5", 1)) /\
   exists st',
     convert_text (E := copying_engine) (field sample_fixed) initial_state =
       Returns result_ptr st' /\
     string_at st' result_ptr = Some sample_Hi).
Proof.
  assert (H1 : Spec.fixed_selector x01 = true) by reflexivity.
  assert (H2 : cache_ok (E := copying_engine) initial_state)
    by (left; split; reflexivity).
  assert (H3 : iconv_open (Collaborators := copying_engine) "UTF-8" "ISO-8859-5"
               <> iconv_failed) by discriminate.
  assert (H4 : iconv (Collaborators := copying_engine)
                 (iconv_open (Collaborators := copying_engine) "UTF-8" "ISO-8859-5")
                 sample_Hi sizeof_buf = sample_Hi) by reflexivity.
  split.
  - split; [exact H1|].
    exact (proj1 (fixed_selector_resolves (E := copying_engine) x01 sample_Hi
                    initial_state) H1).
  - split; [exact H2|]. split; [exact H3|]. split; [exact H4|].
    exact (proj2 (fixed_selector_resolves (E := copying_engine) x01 sample_Hi
                    initial_state) H2 H3 H4).
Defined.

(** C8, as stated, fails on the empty field: the specification's resolver
    answers [InvalidInput], the code answers with the reserved-selector
    failure for code 0x00. *)
Lemma empty_field_not_InvalidInput :
  Spec.resolve [] = inl Spec.InvalidInput /\
  observed_resolution (convert_text_resolve (field []) initial_state) =
    Some (inl (Spec.UnsupportedEncoding x00)) /\
  observed_resolution (convert_text_resolve (field []) initial_state) <>
    Some (Spec.resolve []).
Proof.
  split; [reflexivity|]. split; [reflexivity|]. discriminate.
Qed.

(** C3, as stated, fails on [1F 'a' '&']: with a decoder that returns
    [a&] and an engine that masks every byte, the pipeline returns the
    escaped engine output [??], after an [iconv] call on the decoder's
    output, and not [a&amp;], the escaped decoder output. *)
Lemma freesat_output_not_escaped_directly :
  exists st1 st2,
    convert_text (E := masking_engine) (field sample_freesat) initial_state =
      Returns result_ptr st1 /\
    string_at st1 result_ptr = Some (list_byte_of_string "??") /\
    trace st1 =
      [call_freesat_huffman_to_string sample_freesat 3;
       call_iconv_open "UTF-8" "ISO6937";
       call_iconv 7%Z (list_byte_of_string "a&") sizeof_buf] /\
    xmlify (field (freesat_huffman_to_string
                     (Collaborators := masking_engine) sample_freesat 3))
           initial_state = Returns result_ptr st2 /\
    string_at st2 result_ptr = Some (list_byte_of_string "a&amp;") /\
    string_at st1 result_ptr <> string_at st2 result_ptr.
Proof.
  eexists. eexists.
  split; [vm_compute; reflexivity|].
  split; [vm_compute; reflexivity|].
  split; [vm_compute; reflexivity|].
  split; [vm_compute; reflexivity|].
  split; [vm_compute; reflexivity|].
  vm_compute. discriminate.
Qed.

(* ================================================================== *)
(** * Further properties *)

(* ------------------------------------------------------------------ *)
(** ** Writes past [result] *)

Lemma puts_overflow l : forall k st,
  k <= sizeof_result ->
  sizeof_result < k + List.length l ->
  puts (mkptr Result k) l st = Undefined.
Proof.
  induction l as [|c l IH]; intros k st Hk Ho; simpl in Ho; [lia|].
  destruct (Nat.eq_dec k sizeof_result) as [->|Hne].
  - assert (P : put (mkptr Result sizeof_result) c st = Undefined).
    { unfold put, bind, store. cbn [blk off]. now rewrite Nat.ltb_irrefl. }
    destruct l; simpl; [exact P|]. unfold bind. now rewrite P.
  - destruct l as [|c' l]; [simpl in Ho; lia|].
    change (puts (mkptr Result k) (c :: c' :: l))
      with (bind (put (mkptr Result k) c) (fun r' => puts r' (c' :: l))).
    unfold bind. rewrite put_result by lia.
    apply IH; simpl in *; lia.
Qed.

Lemma xmlify_loop_overflow l : forall b k st,
  blk b <> Result ->
  bytes_at st b l ->
  k <= sizeof_result ->
  sizeof_result < k + List.length (Spec.escape l) ->
  xmlify_loop (List.length l) b (mkptr Result k) st = Undefined.
Proof.
  induction l as [|c l IH]; intros b k st Hb Hl Hk Ho; simpl in Ho; [lia|].
  destruct Hl as [Hc Hl]. rewrite length_app in Ho.
  simpl xmlify_loop. unfold bind.
  destruct (Nat.le_gt_cases (k + List.length (Spec.xml_entity c)) sizeof_result)
    as [Fit|Over].
  - rewrite (xmlify_switch_result _ _ _ _ Hc Fit).
    apply IH; auto; [|lia].
    apply bytes_at_other_state with st; auto.
  - rewrite (xmlify_switch_puts _ _ _ _ Hc).
    destruct (Spec.forbidden c).
    + unfold bind, emit. now rewrite puts_overflow.
    + now rewrite puts_overflow.
Qed.

(** [xmlify] on a string whose image does not leave room for the
    terminator. *)
Lemma xmlify_overflow st p s :
  blk p <> Result ->
  string_at st p = Some s ->
  sizeof_result <= List.length (Spec.escape s) ->
  xmlify p st = Undefined.
Proof.
  intros Hp Hs Ho. destruct (string_at_inv _ _ _ Hs) as (Hb & _ & _).
  unfold xmlify, bind, strlen. rewrite Hs.
  destruct (Nat.eq_dec (List.length (Spec.escape s)) sizeof_result) as [E|N].
  - rewrite (xmlify_loop_result _ _ _ _ Hp Hb) by (simpl; lia).
    unfold store. cbn [blk off]. simpl. rewrite E.
    now rewrite Nat.ltb_irrefl.
  - rewrite (xmlify_loop_overflow _ _ _ _ Hp Hb); [reflexivity|lia|simpl; lia].
Qed.

(* ------------------------------------------------------------------ *)
(** ** What an escaped string looks like *)

Lemma escape_length_lower s : List.length s <= List.length (Spec.escape s).
Proof.
  induction s as [|c s IH]; simpl; [lia|].
  rewrite length_app. pose proof (entity_length c). lia.
Qed.

Lemma entity_cases c :
  c = x22 \/ c = x26 \/ c = x3c \/ c = x3e \/
  (Spec.xml_entity c = [c] /\ c <> x26).
Proof.
  destruct c; auto 6; right; right; right; right; split;
    first [reflexivity | discriminate].
Qed.

Lemma escape_no_markup s :
  ~ In x22 (Spec.escape s) /\ ~ In x3c (Spec.escape s) /\
  ~ In x3e (Spec.escape s).
Proof.
  induction s as [|c s (A & B & C)]; simpl; [tauto|].
  rewrite !in_app_iff.
  destruct (entity_cases c) as [->|[->|[->|[->|[Ec Nc]]]]]; simpl;
    try (repeat split; intros [H|H]; try contradiction;
         intuition discriminate).
  rewrite Ec. simpl.
  assert (c <> x22 /\ c <> x3c /\ c <> x3e) as (N1 & N2 & N3).
  { repeat split; intros ->; discriminate Ec. }
  repeat split; intros [[H|[]]|H]; congruence || contradiction.
Qed.

(** Splitting behind a prefix that does not hold the byte looked for. *)
Lemma app_split_behind (x : byte) l1 : forall r pre post,
  ~ In x l1 ->
  l1 ++ r = pre ++ x :: post ->
  exists pre', pre = l1 ++ pre' /\ r = pre' ++ x :: post.
Proof.
  induction l1 as [|a l1 IH]; intros r pre post Hn H; simpl in *.
  - now exists pre.
  - destruct pre as [|b pre]; simpl in H.
    + injection H as <- _. exfalso. apply Hn. now left.
    + injection H as <- H. destruct (IH r pre post) as (pre' & -> & ->); auto.
      now exists pre'.
Qed.

(** Every ampersand of an escaped string starts an entity. *)
Lemma escape_amp_starts_entity s : forall pre post,
  Spec.escape s = pre ++ "&"%byte :: post ->
  exists tail rest, In tail entity_tails /\ post = tail ++ rest.
Proof.
  induction s as [|c s IH]; intros pre post H; simpl in H.
  - destruct pre; discriminate.
  - assert (Special : forall tail,
              In tail entity_tails -> ~ In "&"%byte tail ->
              ("&"%byte :: tail) ++ Spec.escape s = pre ++ "&"%byte :: post ->
              exists tail' rest, In tail' entity_tails /\ post = tail' ++ rest).
    { intros tail Ht Hn E. destruct pre as [|b pre]; simpl in E.
      - injection E as E. exists tail, (Spec.escape s). split; [exact Ht|].
        now symmetry.
      - injection E as _ E.
        destruct (app_split_behind _ _ _ _ _ Hn E) as (pre' & _ & E').
        now apply IH with pre'. }
    destruct (entity_cases c) as [->|[->|[->|[->|[Ec Nc]]]]].
    + apply (Special (list_byte_of_string "quot;")); auto.
      * simpl. tauto.
      * simpl. intuition discriminate.
    + apply (Special (list_byte_of_string "amp;")); auto.
      * simpl. tauto.
      * simpl. intuition discriminate.
    + apply (Special (list_byte_of_string "lt;")); auto.
      * simpl. tauto.
      * simpl. intuition discriminate.
    + apply (Special (list_byte_of_string "gt;")); auto.
      * simpl. tauto.
      * simpl. intuition discriminate.
    + rewrite Ec in H. simpl in H. destruct pre as [|b pre]; simpl in H.
      * injection H as H _. congruence.
      * injection H as _ H. now apply IH with pre.
Qed.

(** Distinct strings have distinct images. *)
Lemma escape_injective s : forall t, Spec.escape s = Spec.escape t -> s = t.
Proof.
  assert (Nonempty : forall d l, [] <> Spec.xml_entity d ++ l).
  { intros d l H. pose proof (entity_length d).
    destruct (Spec.xml_entity d); simpl in *; [lia | discriminate]. }
  induction s as [|c s IH]; intros [|d t] H; simpl in H.
  - reflexivity.
  - now apply Nonempty in H.
  - symmetry in H. now apply Nonempty in H.
  - assert (c = d /\ Spec.escape s = Spec.escape t) as [-> E].
    { destruct (entity_cases c) as [->|[->|[->|[->|[Ec Nc]]]]];
        destruct (entity_cases d) as [->|[->|[->|[->|[Ed Nd]]]]];
        try rewrite Ec in H; try rewrite Ed in H; simpl in H;
        try (injection H; intros; subst; first [congruence | now split]). }
    f_equal. now apply IH.
Qed.

(* ------------------------------------------------------------------ *)
(** ** Further properties of the XML Escaper *)

(** X1 - [xmlify] has no bounds check: when the image of the input string
    does not leave room for the terminator in [result] (6144 bytes or
    more), the call writes past the array, which is undefined
    behaviour. *)
Theorem xmlify_overruns_result (s : list byte) (st : state) :
  is_c_string s = true ->
  sizeof_result <= List.length (Spec.escape s) ->
  xmlify (field s) st = Undefined.
Proof.
  intros Hs Ho. apply is_c_string_spec in Hs.
  apply xmlify_overflow with s; [discriminate | now apply string_at_caller | exact Ho].
Qed.

Lemma xmlify_overruns_result_witness :
  is_c_string sample_quotes = true /\
  sizeof_result <= List.length (Spec.escape sample_quotes) /\
  List.length sample_quotes = MAX /\
  xmlify (field sample_quotes) initial_state = Undefined.
Proof.
  assert (H1 : is_c_string sample_quotes = true) by (vm_compute; reflexivity).
  assert (H2 : sizeof_result <= List.length (Spec.escape sample_quotes))
    by (apply Nat.leb_le; vm_compute; reflexivity).
  split; [exact H1|]. split; [exact H2|].
  split; [apply repeat_length|].
  exact (xmlify_overruns_result sample_quotes initial_state H1 H2).
Defined.

(** X2 - A string shorter than [MAX] bytes never overruns [result],
    whatever it contains: [xmlify] returns, and its output is at least as
    long as the input and at most six times as long. *)
Theorem xmlify_safe_below_MAX (s : list byte) (st : state) :
  is_c_string s = true ->
  List.length s < MAX ->
  exists st' out,
    xmlify (field s) st = Returns result_ptr st' /\
    string_at st' result_ptr = Some out /\
    List.length s <= List.length out <= 6 * List.length s.
Proof.
  intros Hs Hl. apply is_c_string_spec in Hs.
  pose proof (escape_fits s Hl) as Hf.
  exists (xmlify_post st s), (Spec.escape s). split; [|split].
  - apply xmlify_correct; [discriminate | now apply string_at_caller | exact Hf].
  - now apply string_at_xmlify_post.
  - split; [apply escape_length_lower | apply escape_length].
Qed.

Lemma xmlify_safe_below_MAX_witness :
  is_c_string sample_markup = true /\
  List.length sample_markup < MAX /\
  exists st' out,
    xmlify (field sample_markup) initial_state = Returns result_ptr st' /\
    string_at st' result_ptr = Some out /\
    List.length sample_markup <= List.length out <= 6 * List.length sample_markup.
Proof.
  assert (H1 : is_c_string sample_markup = true) by reflexivity.
  assert (H2 : List.length sample_markup < MAX)
    by (apply Nat.ltb_lt; reflexivity).
  split; [exact H1|]. split; [exact H2|].
  exact (xmlify_safe_below_MAX sample_markup initial_state H1 H2).
Defined.

(** X3 - The output of [xmlify] is safe to embed in XML: it contains no
    quote, no less-than and no greater-than byte, and every ampersand in
    it is followed by [quot;], [amp;], [lt;] or [gt;]. *)
Theorem xmlify_output_is_markup_free (s : list byte) (st : state) :
  is_c_string s = true ->
  List.length (Spec.escape s) < sizeof_result ->
  exists st' out,
    xmlify (field s) st = Returns result_ptr st' /\
    string_at st' result_ptr = Some out /\
    ~ In x22 out /\ ~ In "<"%byte out /\ ~ In ">"%byte out /\
    (forall pre post,
       out = pre ++ "&"%byte :: post ->
       exists tail rest, In tail entity_tails /\ post = tail ++ rest).
Proof.
  intros Hs Hl. apply is_c_string_spec in Hs.
  exists (xmlify_post st s), (Spec.escape s).
  destruct (escape_no_markup s) as (A & B & C).
  split; [|split; [|split; [exact A|split; [exact B|split; [exact C|]]]]].
  - apply xmlify_correct; [discriminate | now apply string_at_caller | exact Hl].
  - now apply string_at_xmlify_post.
  - intros pre post H. now apply escape_amp_starts_entity with s pre.
Qed.

Lemma xmlify_output_is_markup_free_witness :
  is_c_string sample_markup = true /\
  List.length (Spec.escape sample_markup) < sizeof_result /\
  exists st' out,
    xmlify (field sample_markup) initial_state = Returns result_ptr st' /\
    string_at st' result_ptr = Some out /\
    ~ In x22 out /\ ~ In "<"%byte out /\ ~ In ">"%byte out.
Proof.
  assert (H1 : is_c_string sample_markup = true) by reflexivity.
  assert (H2 : List.length (Spec.escape sample_markup) < sizeof_result)
    by (apply Nat.ltb_lt; reflexivity).
  split; [exact H1|]. split; [exact H2|].
  destruct (xmlify_output_is_markup_free sample_markup initial_state H1 H2)
    as (st' & out & R & S & A & B & C & _).
  exists st', out. repeat split; assumption.
Defined.

(** X4 - Escaping loses nothing: two input strings on which [xmlify]
    returns the same output string are the same string. *)
Theorem xmlify_injective (s t : list byte) (st1 st2 st1' st2' : state)
    (p1 p2 : cptr) :
  is_c_string s = true ->
  is_c_string t = true ->
  xmlify (field s) st1 = Returns p1 st1' ->
  xmlify (field t) st2 = Returns p2 st2' ->
  string_at st1' p1 = string_at st2' p2 ->
  s = t.
Proof.
  intros Hs Ht R1 R2 E.
  apply is_c_string_spec in Hs. apply is_c_string_spec in Ht.
  assert (Fit : forall u st p st',
             ~ In x00 u -> xmlify (field u) st = Returns p st' ->
             string_at st' p = Some (Spec.escape u)).
  { intros u st p st' Hu R.
    destruct (Nat.le_gt_cases sizeof_result (List.length (Spec.escape u)))
      as [Over|Fits].
    - rewrite (xmlify_overflow st (field u) u) in R;
        [discriminate | discriminate | now apply string_at_caller | exact Over].
    - rewrite (xmlify_correct st (field u) u) in R;
        [| discriminate | now apply string_at_caller | exact Fits].
      injection R as <- <-. now apply string_at_xmlify_post. }
  rewrite (Fit s _ _ _ Hs R1), (Fit t _ _ _ Ht R2) in E.
  injection E as E. now apply escape_injective.
Qed.

Lemma xmlify_injective_witness :
  exists st1' st2',
    is_c_string sample_amp = true /\
    xmlify (field sample_amp) initial_state = Returns result_ptr st1' /\
    xmlify (field sample_amp) warm_state = Returns result_ptr st2' /\
    string_at st1' result_ptr = string_at st2' result_ptr /\
    sample_amp = sample_amp.
Proof.
  eexists. eexists.
  assert (H1 : is_c_string sample_amp = true) by reflexivity.
  split; [exact H1|].
  split; [vm_compute; reflexivity|].
  split; [vm_compute; reflexivity|].
  assert (E : string_at (xmlify_post initial_state sample_amp) result_ptr =
              string_at (xmlify_post warm_state sample_amp) result_ptr)
    by (vm_compute; reflexivity).
  split; [exact E|].
  refine (xmlify_injective sample_amp sample_amp initial_state warm_state
            _ _ result_ptr result_ptr H1 H1 _ _ E);
    vm_compute; reflexivity.
Defined.

(* ------------------------------------------------------------------ *)
(** ** What xmlify leaves alone *)

Lemma touches_refl (r : cptr) (st : state) :
  blk r = Result -> touches_only_result st (Returns r st).
Proof.
  intros H. simpl. split; [exact H|]. split; [repeat split|].
  exists []. now rewrite app_nil_r.
Qed.

Lemma touches_trans (st st1 : state) (r : cptr) (o : outcome cptr) :
  touches_only_result st (Returns r st1) ->
  touches_only_result st1 o ->
  touches_only_result st o.
Proof.
  intros (_ & (B & C & D) & l1 & T1 & F1) H. destruct o as [r' st'| |]; simpl in *;
    [|exact H|exact I].
  destruct H as (Hr & (B' & C' & D') & l2 & T2 & F2).
  split; [exact Hr|]. split; [repeat split; congruence|].
  exists (l1 ++ l2). split.
  - now rewrite T2, T1, app_assoc.
  - now rewrite forallb_app, F1, F2.
Qed.

Lemma put_touches (k : nat) (c : byte) (st : state) :
  touches_only_result st (put (mkptr Result k) c st).
Proof.
  unfold put, bind, store, ret. cbn [blk off].
  destruct (k <? sizeof_result); [|exact I].
  simpl. split; [reflexivity|]. split; [repeat split|].
  exists []. now rewrite app_nil_r.
Qed.

Lemma puts_touches l : forall k st,
  touches_only_result st (puts (mkptr Result k) l st).
Proof.
  induction l as [|c l IH]; intros k st.
  - exact (touches_refl (mkptr Result k) st eq_refl).
  - destruct l as [|c' l]; [apply put_touches|].
    change (puts (mkptr Result k) (c :: c' :: l))
      with (bind (put (mkptr Result k) c) (fun r' => puts r' (c' :: l))).
    unfold bind. pose proof (put_touches k c st) as P.
    destruct (put (mkptr Result k) c st) as [r st1| |] eqn:E; try exact P.
    apply touches_trans with st1 r; [exact P|].
    destruct r as [b o]. destruct P as (Hb & _). simpl in Hb. subst b. apply IH.
Qed.

Lemma xmlify_switch_touches (b : cptr) (k : nat) (st : state) :
  touches_only_result st (xmlify_switch b (mkptr Result k) st).
Proof.
  destruct (peek st b) as [c|] eqn:P.
  - rewrite (xmlify_switch_puts c b _ st P).
    destruct (Spec.forbidden c) eqn:F; [|apply puts_touches].
    unfold bind, emit.
    pose proof (puts_touches (Spec.xml_entity c) k (add_trace [forbidden_char c] st)) as H.
    destruct (puts _ _ _) as [r st'| |]; simpl in *; try exact H.
    destruct H as (Hr & Hs & logs & T & Fl).
    split; [exact Hr|]. split; [exact Hs|].
    exists (forbidden_char c :: logs). split.
    + rewrite T. now rewrite <- app_assoc.
    + simpl. now rewrite F, Fl.
  - unfold xmlify_switch, bind, load. now rewrite P.
Qed.

Lemma xmlify_loop_touches n : forall b k st,
  touches_only_result st (xmlify_loop n b (mkptr Result k) st).
Proof.
  induction n as [|n IH]; intros b k st; simpl.
  - exact (touches_refl (mkptr Result k) st eq_refl).
  - unfold bind. pose proof (xmlify_switch_touches b k st) as P.
    destruct (xmlify_switch b (mkptr Result k) st) as [r st1| |]; try exact P.
    apply touches_trans with st1 r; [exact P|].
    destruct r as [b' o]. destruct P as (Hb & _). simpl in Hb. subst b'. apply IH.
Qed.

Lemma xmlify_touches (p : cptr) (st : state) :
  match xmlify p st with
  | Returns q st' => q = result_ptr /\ touches_only_result st (Returns q st')
  | Exits _ _ => False
  | Undefined => True
  end.
Proof.
  unfold xmlify, bind, strlen.
  destruct (string_at st p) as [s|]; [|exact I].
  pose proof (xmlify_loop_touches (List.length s) p 0 st) as P.
  destruct (xmlify_loop _ _ _ _) as [r st1| |]; try exact P.
  destruct r as [b k]. destruct P as (Hb & Hs & logs & T & F). simpl in Hb. subst b.
  unfold store, ret. cbn [blk off].
  destruct (k <? sizeof_result); [|exact I].
  split; [reflexivity|]. simpl. split; [reflexivity|].
  split; [exact Hs|]. exists logs. now split.
Qed.

(** X5 - [xmlify] works on [result] alone.  On any pointer, also one into
    [result] itself, it never exits; and when it returns, it returns
    [result], it has left [buf], the cached charset name and the engine
    handle as they were, and everything it has added to the trace is a
    report of a forbidden byte. *)
Theorem xmlify_touches_only_result (p : cptr) (st : state) :
  (forall status st', xmlify p st <> Exits status st') /\
  (forall q st',
     xmlify p st = Returns q st' ->
     q = result_ptr /\
     buf st' = buf st /\ cs_old st' = cs_old st /\ cd st' = cd st /\
     exists logs, trace st' = trace st ++ logs /\
                  forallb is_forbidden_report logs = true).
Proof.
  pose proof (xmlify_touches p st) as H. split.
  - intros status st' E. now rewrite E in H.
  - intros q st' E. rewrite E in H.
    destruct H as (Hq & _ & (B & C & D) & L). auto.
Qed.

Lemma xmlify_touches_only_result_witness :
  exists st',
    xmlify (field sample_bell) warm_state = Returns result_ptr st' /\
    buf st' = buf warm_state /\ cs_old st' = "ISO6937" /\ cd st' = 7%Z /\
    exists logs, trace st' = trace warm_state ++ logs /\
                 forallb is_forbidden_report logs = true.
Proof.
  assert (R : xmlify (field sample_bell) warm_state =
              Returns result_ptr (xmlify_post warm_state sample_bell))
    by (vm_compute; reflexivity).
  exists (xmlify_post warm_state sample_bell). split; [exact R|].
  destruct (proj2 (xmlify_touches_only_result (field sample_bell) warm_state)
                  result_ptr _ R) as (_ & B & C & D & L).
  auto.
Defined.

(* ------------------------------------------------------------------ *)
(** ** The stages of convert_text, on any pointer *)

(** The encoding stage is decided by the byte [s[0]]. *)
Lemma resolve_cases (p : cptr) (st : state) (c : byte) :
  peek st p = Some c ->
  convert_text_resolve p st =
  if Byte.eqb c x10 then Undefined
  else if Spec.reserved_selector c
       then Returns (mkresolved (Byte.to_nat c) true None p)
                    (add_trace [reserved_encoding c] st)
       else Returns (mkresolved (Byte.to_nat c) false (Some (charset_of c))
                      (if Spec.fixed_selector c then ptr_add p 1 else p)) st.
Proof.
  intros Hp. unfold convert_text_resolve, bind, load. rewrite Hp.
  destruct c;
    cbn -[add_trace]; unfold bind, load, subscript, ret, emit; cbn -[add_trace];
    rewrite ?Hp; reflexivity.
Qed.

Lemma resolve_unreadable (p : cptr) (st : state) :
  peek st p = None -> convert_text_resolve p st = Undefined.
Proof.
  intros Hp. unfold convert_text_resolve, bind, load. now rewrite Hp.
Qed.

(** The names the encoding stage can leave in [cs_new] fit the array with
    their terminator, and none is empty. *)
Lemma charset_of_short (c : byte) :
  c <> x10 -> Spec.reserved_selector c = false ->
  String.length (charset_of c) < 16 /\ charset_of c <> EmptyString.
Proof.
  intros H R. destruct c; try congruence; try discriminate R;
    (split; [vm_compute; lia | discriminate]).
Qed.

Section Stages.

Context {E : Collaborators}.

Lemma open_cases (name : string) (st : state) :
  convert_text_open (Some name) st =
  if (strncmp (cs_old st) name 16 =? 0)%Z then Returns tt st
  else if (iconv_open "UTF-8" name =? iconv_failed)%Z
       then Exits 1 (reopened st name (cs_old st)
                       (closes st ++ [call_iconv_open "UTF-8" name; iconv_open_failed]))
       else Returns tt (reopened st name (strncpy name 16)
                          (closes st ++ [call_iconv_open "UTF-8" name])).
Proof.
  destruct (strncmp (cs_old st) name 16 =? 0)%Z eqn:H.
  - apply open_hit. now apply Z.eqb_eq.
  - apply open_miss. now apply Z.eqb_neq.
Qed.

Lemma iconv_cases (s : cptr) (st : state) :
  convert_text_iconv s st =
  match string_at st s with
  | None => Undefined
  | Some inbytes =>
      if List.length (iconv (cd st) inbytes sizeof_buf) <? sizeof_buf
      then Returns tt (converted st inbytes)
      else Undefined
  end.
Proof.
  destruct (string_at st s) as [inbytes|] eqn:Hs.
  - destruct (List.length (iconv (cd st) inbytes sizeof_buf) <? sizeof_buf) eqn:L.
    + apply iconv_step; [exact Hs | now apply Nat.ltb_lt].
    + apply Nat.ltb_ge in L.
      unfold convert_text_iconv, bind, read_string. rewrite Hs.
      unfold get, emit, modify, store. cbn [blk off].
      rewrite length_firstn, Nat.min_l by exact L.
      now rewrite Nat.ltb_irrefl.
  - unfold convert_text_iconv, bind, read_string. now rewrite Hs.
Qed.

Lemma freesat_cases (s : cptr) (st : state) :
  convert_text_freesat s st =
  match string_at st s with
  | None => Undefined
  | Some src =>
      Returns (field (freesat_huffman_to_string src (List.length src)))
              (add_trace [call_freesat_huffman_to_string src (List.length src)] st)
  end.
Proof.
  unfold convert_text_freesat, bind, read_string.
  now destruct (string_at st s).
Qed.

(** The pipeline behind a first byte that is neither reserved nor the
    variable selector. *)
Lemma convert_text_stages (p : cptr) (st : state) (c : byte) :
  peek st p = Some c ->
  c <> x10 ->
  Spec.reserved_selector c = false ->
  convert_text p st =
  (s <- (if Byte.to_nat c =? 0x1F then convert_text_freesat p
         else ret (if Spec.fixed_selector c then ptr_add p 1 else p)) ;;
   convert_text_open (Some (charset_of c)) ;;;
   convert_text_iconv s ;;;
   xmlify (mkptr Buf 0)) st.
Proof.
  intros Hp Hv Hr.
  pose proof (resolve_cases p st c Hp) as R.
  rewrite Hr in R.
  destruct (Byte.eqb c x10) eqn:X; [apply byte_dec_bl in X; congruence|].
  rewrite (convert_text_resolved _ _ _ _ R). cbn [r_failed r_i r_cs_new r_s].
  destruct (Byte.to_nat c =? 0x1F) eqn:F; [|reflexivity].
  assert (c = x1f).
  { apply Nat.eqb_eq in F. apply (f_equal Byte.of_nat) in F.
    rewrite Byte.of_to_nat in F. now injection F. }
  subst c. reflexivity.
Qed.

Lemma convert_text_reserved (p : cptr) (st : state) (c : byte) :
  peek st p = Some c ->
  Spec.reserved_selector c = true ->
  convert_text p st = Returns empty_literal (add_trace [reserved_encoding c] st).
Proof.
  intros Hp Hr.
  rewrite (convert_text_resolved _ _ _ _ (resolve_reserved_slot p c st Hp Hr)).
  reflexivity.
Qed.

(** What has happened when [convert_text] has returned. *)
Lemma convert_text_returns_inv (p q : cptr) (st st' : state) :
  convert_text p st = Returns q st' ->
  exists c, peek st p = Some c /\ c <> x10 /\
  ((Spec.reserved_selector c = true /\ q = empty_literal /\
    st' = add_trace [reserved_encoding c] st) \/
   (Spec.reserved_selector c = false /\
    exists s st1 st2 st3,
      (if Byte.to_nat c =? 0x1F then convert_text_freesat p
       else ret (if Spec.fixed_selector c then ptr_add p 1 else p)) st =
        Returns s st1 /\
      convert_text_open (Some (charset_of c)) st1 = Returns tt st2 /\
      convert_text_iconv s st2 = Returns tt st3 /\
      xmlify (mkptr Buf 0) st3 = Returns q st')).
Proof.
  intros H. destruct (peek st p) as [c|] eqn:Hp.
  - exists c. split; [reflexivity|].
    assert (Hv : c <> x10).
    { intros ->. unfold convert_text, bind in H.
      rewrite (resolve_cases p st x10 Hp) in H. discriminate. }
    split; [exact Hv|].
    destruct (Spec.reserved_selector c) eqn:Hr.
    + left. rewrite (convert_text_reserved p st c Hp Hr) in H.
      injection H as <- <-. auto.
    + right. split; [reflexivity|].
      rewrite (convert_text_stages p st c Hp Hv Hr) in H.
      unfold bind at 1 in H.
      destruct ((if Byte.to_nat c =? 31 then convert_text_freesat p
                 else ret (if Spec.fixed_selector c then ptr_add p 1 else p)) st)
        as [s st1| |] eqn:S1; try discriminate.
      unfold bind at 1 in H.
      destruct (convert_text_open (Some (charset_of c)) st1)
        as [[] st2| |] eqn:S2; try discriminate.
      unfold bind at 1 in H.
      destruct (convert_text_iconv s st2) as [[] st3| |] eqn:S3; try discriminate.
      exists s, st1, st2, st3. auto.
  - unfold convert_text, bind in H. rewrite (resolve_unreadable p st Hp) in H.
    discriminate.
Qed.

End Stages.

(* ------------------------------------------------------------------ *)
(** ** More on strings in memory *)

Lemma peek_same_memory (st st' : state) (p : cptr) :
  buf st' = buf st -> result st' = result st -> peek st' p = peek st p.
Proof.
  intros B R. unfold peek. destruct (blk p); [reflexivity| |].
  - now rewrite B.
  - now rewrite R.
Qed.

Lemma string_from_same_memory (st st' : state) fuel : forall p,
  buf st' = buf st -> result st' = result st ->
  string_from st' p fuel = string_from st p fuel.
Proof.
  induction fuel as [|fuel IH]; intros p B R; simpl; [reflexivity|].
  rewrite (peek_same_memory st st' p B R).
  destruct (peek st p) as [c|]; [|reflexivity].
  destruct (Byte.eqb c x00); [reflexivity|]. now rewrite IH.
Qed.

Lemma string_at_same_memory (st st' : state) (p : cptr) :
  buf st' = buf st -> result st' = result st ->
  string_at st' p = string_at st p.
Proof. intros B R. now apply string_from_same_memory. Qed.

(** The string behind a selector of any length, in a raw field. *)
Lemma string_at_caller_offset (st : state) (pre m : list byte) :
  string_at st (mkptr (Caller (pre ++ m)) (List.length pre)) =
  Some (c_string_of m).
Proof.
  unfold string_at. cbn [blk off].
  pose proof (bytes_at_caller pre m st) as Hb.
  assert (Hp : forall k,
            peek st (ptr_add (mkptr (Caller (pre ++ m)) (List.length pre)) k) =
            nth_error (m ++ [x00]) k).
  { intros k. unfold peek, ptr_add. cbn [blk off].
    rewrite <- app_assoc. rewrite nth_error_app2 by lia. f_equal. lia. }
  destruct (c_string_of_split m) as [H|[post H]].
  - apply string_from_intro.
    + now rewrite <- H.
    + rewrite Hp, <- H. rewrite nth_error_app2 by lia. now rewrite Nat.sub_diag.
    + apply c_string_of_no_NUL.
    + rewrite <- H. unfold block_size. rewrite length_app. lia.
  - apply string_from_intro.
    + rewrite H in Hb at 2. now apply bytes_at_prefix in Hb.
    + rewrite Hp. rewrite H at 1. rewrite <- app_assoc.
      rewrite nth_error_app2 by lia. now rewrite Nat.sub_diag.
    + apply c_string_of_no_NUL.
    + unfold block_size. rewrite length_app. rewrite H at 2.
      rewrite length_app. simpl List.length. lia.
Qed.

(** What [xmlify] finds in [buf] when the engine's output holds a NUL of
    its own: the part in front of it. *)
Lemma string_at_buf_cut (st : state) (f : nat -> byte) (out : list byte) :
  buf st = upd (write_list f 0 out) (List.length out) x00 ->
  List.length out < sizeof_buf ->
  string_at st (mkptr Buf 0) = Some (c_string_of out).
Proof.
  intros Hb Hl. destruct (c_string_of_split out) as [H|[post H]].
  - rewrite <- H. apply string_at_buf with f; auto.
    rewrite H. apply c_string_of_no_NUL.
  - remember (c_string_of out) as z eqn:Ez.
    assert (Nz : ~ In x00 z) by (rewrite Ez; apply c_string_of_no_NUL).
    clear Ez.
    assert (Hz : List.length z < List.length out)
      by (rewrite H, length_app; simpl; lia).
    unfold string_at. cbn [blk off]. rewrite Nat.sub_0_r.
    apply string_from_intro.
    + apply bytes_at_buf; [simpl; lia|].
      intros j c Hj. simpl. rewrite Hb.
      assert (j < List.length z) by (apply nth_error_Some; congruence).
      rewrite upd_neq by lia.
      apply (write_list_at _ _ 0).
      rewrite H. now rewrite nth_error_app1.
    + unfold peek, ptr_add. cbn [blk off]. rewrite Nat.add_0_l.
      assert (L : (List.length z <? sizeof_buf) = true)
        by (apply Nat.ltb_lt; lia).
      rewrite L. f_equal. rewrite Hb. rewrite upd_neq by lia.
      apply (write_list_at out f 0 (List.length z) x00).
      rewrite H. rewrite nth_error_app2 by lia. now rewrite Nat.sub_diag.
    + exact Nz.
    + unfold block_size. lia.
Qed.

Lemma substring_length n : forall s, String.length (substring 0 n s) <= n.
Proof.
  induction n as [|n IH]; intros [|c s]; simpl; try lia.
  specialize (IH s). lia.
Qed.

Lemma charset_of_default (c : byte) :
  0x1F <= Byte.to_nat c -> charset_of c = "ISO6937".
Proof.
  intros H. unfold charset_of. apply Nat.ltb_ge in H. now rewrite H.
Qed.

Lemma default_selector_facts (c : byte) :
  0x20 <= Byte.to_nat c ->
  c <> x10 /\ Spec.reserved_selector c = false /\
  Spec.fixed_selector c = false /\ (Byte.to_nat c =? 0x1F) = false.
Proof.
  intros H. destruct c; simpl in H; try lia;
    (split; [discriminate|]); repeat split.
Qed.

Lemma fixed_selector_facts (c : byte) :
  Spec.fixed_selector c = true ->
  c <> x10 /\ Spec.reserved_selector c = false /\
  (Byte.to_nat c =? 0x1F) = false /\
  data (encoding (Byte.to_nat c)) = Some (charset_of c).
Proof.
  intros H. destruct c; try discriminate H;
    (split; [discriminate|]); repeat split.
Qed.

(* ------------------------------------------------------------------ *)
(** ** The pipeline as a whole *)

Section Whole.

Context {E : Collaborators}.

Lemma cache_ok_same (st st' : state) :
  cs_old st' = cs_old st -> cd st' = cd st -> cache_ok st -> cache_ok st'.
Proof.
  intros C D [[H1 H2]|[H1 H2]]; [left|right]; rewrite ?C, ?D; auto.
Qed.

(** What [convert_text_open] leaves behind when the engine knows the
    name. *)
Lemma open_succeeds (name : string) (st : state) :
  String.length name < 16 ->
  name <> EmptyString ->
  cache_ok st ->
  iconv_open "UTF-8" name <> iconv_failed ->
  exists st2,
    convert_text_open (Some name) st = Returns tt st2 /\
    cd st2 = iconv_open "UTF-8" name /\ cs_old st2 = name /\
    buf st2 = buf st /\ result st2 = result st /\
    trace st2 = trace st ++ reopening st name.
Proof.
  intros Hl Hne Hok Hopen. rewrite open_cases. unfold reopening.
  destruct (strncmp (cs_old st) name 16 =? 0)%Z eqn:Hit.
  - apply Z.eqb_eq in Hit. exists st.
    split; [reflexivity|]. split; [now apply hit_handle|]. split.
    + apply strncmp_zero in Hit.
      rewrite (substring_all 16 name) in Hit by lia.
      now apply substring_short in Hit.
    + repeat split. now rewrite app_nil_r.
  - apply Z.eqb_neq in Hopen. rewrite Hopen. eexists.
    split; [reflexivity|]. unfold reopened, strncpy. simpl.
    rewrite substring_all by lia. repeat split.
Qed.

Lemma pipeline_converts (p : cptr) (st : state) (c : byte) (inbytes : list byte) :
  peek st p = Some c ->
  c <> x10 ->
  Spec.reserved_selector c = false ->
  (Byte.to_nat c =? 0x1F) = false ->
  string_at st (if Spec.fixed_selector c then ptr_add p 1 else p) = Some inbytes ->
  cache_ok st ->
  iconv_open "UTF-8" (charset_of c) <> iconv_failed ->
  List.length (iconv (iconv_open "UTF-8" (charset_of c)) inbytes sizeof_buf)
    < sizeof_buf ->
  List.length
    (Spec.escape
       (c_string_of (iconv (iconv_open "UTF-8" (charset_of c)) inbytes sizeof_buf)))
    < sizeof_result ->
  exists st',
    convert_text p st = Returns result_ptr st' /\
    string_at st' result_ptr =
      Some (Spec.escape
              (c_string_of
                 (iconv (iconv_open "UTF-8" (charset_of c)) inbytes sizeof_buf))) /\
    trace st' =
      trace st ++ reopening st (charset_of c) ++
      call_iconv (iconv_open "UTF-8" (charset_of c)) inbytes sizeof_buf ::
      reports (c_string_of
                 (iconv (iconv_open "UTF-8" (charset_of c)) inbytes sizeof_buf)) /\
    cs_old st' = charset_of c /\
    cd st' = iconv_open "UTF-8" (charset_of c).
Proof.
  intros Hp Hv Hr Hf Hs Hok Hopen Hout Hesc.
  destruct (charset_of_short c Hv Hr) as [Hl Hne].
  set (name := charset_of c) in *.
  set (h := iconv_open "UTF-8" name) in *.
  set (out := iconv h inbytes sizeof_buf) in *.
  rewrite (convert_text_stages p st c Hp Hv Hr). rewrite Hf.
  unfold bind at 1. unfold ret at 1. unfold bind at 1.
  destruct (open_succeeds name st Hl Hne Hok Hopen)
    as (st2 & O & D2 & C2 & B2 & R2 & T2).
  fold name. rewrite O. unfold bind at 1.
  rewrite <- (string_at_same_memory st st2 _ B2 R2) in Hs.
  rewrite (iconv_step _ _ _ Hs) by (rewrite D2; exact Hout).
  assert (S3 : string_at (converted st2 inbytes) (mkptr Buf 0) =
               Some (c_string_of out)).
  { apply string_at_buf_cut with (buf st2); [|exact Hout].
    unfold converted. cbn [buf]. rewrite D2.
    change (iconv (iconv_open "UTF-8" name) inbytes sizeof_buf) with out.
    rewrite firstn_all2 by (apply Nat.lt_le_incl; exact Hout).
    reflexivity. }
  exists (xmlify_post (converted st2 inbytes) (c_string_of out)).
  split; [|split; [|split; [|split]]].
  - apply xmlify_correct; [discriminate | exact S3 | exact Hesc].
  - apply string_at_xmlify_post; [apply c_string_of_no_NUL | exact Hesc].
  - unfold xmlify_post, converted. cbn [trace]. rewrite T2, D2.
    now rewrite <- !app_assoc.
  - exact C2.
  - exact D2.
Qed.

Lemma c_string_of_cons (c : byte) (m : list byte) :
  c <> x00 -> c_string_of (c :: m) = c :: c_string_of m.
Proof.
  intros H. simpl. destruct (Byte.eqb c x00) eqn:Z; [|reflexivity].
  apply byte_dec_bl in Z. contradiction.
Qed.

(** X6 - A field without selector (first byte 0x20 or above) is converted
    whole, first byte included, under the default charset [ISO6937]: the
    engine is reopened only if another name was cached, [iconv] is called
    once on the field up to its first NUL, and the string returned in
    [result] is the escaped engine output (up to a NUL of its own).
    Afterwards [ISO6937] and its handle are cached. *)
Theorem default_charset_pipeline (b0 : byte) (rest : list byte) (st : state) :
  0x20 <= Byte.to_nat b0 ->
  cache_ok st ->
  iconv_open "UTF-8" "ISO6937" <> iconv_failed ->
  List.length (iconv (iconv_open "UTF-8" "ISO6937") (b0 :: c_string_of rest)
                     sizeof_buf) < sizeof_buf ->
  List.length
    (Spec.escape
       (c_string_of (iconv (iconv_open "UTF-8" "ISO6937")
                           (b0 :: c_string_of rest) sizeof_buf)))
    < sizeof_result ->
  exists st',
    convert_text (field (b0 :: rest)) st = Returns result_ptr st' /\
    string_at st' result_ptr =
      Some (Spec.escape
              (c_string_of (iconv (iconv_open "UTF-8" "ISO6937")
                                  (b0 :: c_string_of rest) sizeof_buf))) /\
    trace st' =
      trace st ++ reopening st "ISO6937" ++
      call_iconv (iconv_open "UTF-8" "ISO6937") (b0 :: c_string_of rest) sizeof_buf ::
      reports (c_string_of (iconv (iconv_open "UTF-8" "ISO6937")
                                  (b0 :: c_string_of rest) sizeof_buf)) /\
    cs_old st' = "ISO6937" /\
    cd st' = iconv_open "UTF-8" "ISO6937".
Proof.
  intros Hb Hok Hopen Hout Hesc.
  destruct (default_selector_facts b0 Hb) as (Hv & Hr & Hx & Hf).
  assert (Hn : charset_of b0 = "ISO6937") by (apply charset_of_default; lia).
  assert (Hz : b0 <> x00) by (intros ->; simpl in Hb; lia).
  pose proof (pipeline_converts (field (b0 :: rest)) st b0 (b0 :: c_string_of rest)
                (peek_field_head st b0 rest) Hv Hr Hf) as P.
  rewrite Hx, Hn in P. apply P; auto.
  rewrite string_at_field. f_equal. now apply c_string_of_cons.
Qed.

(** X7 - A field with a fixed selector is converted without its selector
    byte, under the charset named in the selector's table slot: [iconv]
    is called once on what follows the selector, up to the first NUL, and
    the string returned in [result] is the escaped engine output.
    Afterwards that charset and its handle are cached. *)
Theorem fixed_charset_pipeline (b0 : byte) (rest : list byte) (name : string)
    (st : state) :
  Spec.fixed_selector b0 = true ->
  data (encoding (Byte.to_nat b0)) = Some name ->
  cache_ok st ->
  iconv_open "UTF-8" name <> iconv_failed ->
  List.length (iconv (iconv_open "UTF-8" name) (c_string_of rest) sizeof_buf)
    < sizeof_buf ->
  List.length
    (Spec.escape
       (c_string_of (iconv (iconv_open "UTF-8" name) (c_string_of rest) sizeof_buf)))
    < sizeof_result ->
  exists st',
    convert_text (field (b0 :: rest)) st = Returns result_ptr st' /\
    string_at st' result_ptr =
      Some (Spec.escape
              (c_string_of (iconv (iconv_open "UTF-8" name) (c_string_of rest)
                                  sizeof_buf))) /\
    trace st' =
      trace st ++ reopening st name ++
      call_iconv (iconv_open "UTF-8" name) (c_string_of rest) sizeof_buf ::
      reports (c_string_of (iconv (iconv_open "UTF-8" name) (c_string_of rest)
                                  sizeof_buf)) /\
    cs_old st' = name /\
    cd st' = iconv_open "UTF-8" name.
Proof.
  intros Hb Hd Hok Hopen Hout Hesc.
  destruct (fixed_selector_facts b0 Hb) as (Hv & Hr & Hf & Hn).
  assert (name = charset_of b0) by congruence. subst name.
  pose proof (pipeline_converts (field (b0 :: rest)) st b0 (c_string_of rest)
                (peek_field_head st b0 rest) Hv Hr Hf) as P.
  rewrite Hb in P. apply P; auto.
  exact (string_at_caller_offset st [b0] rest).
Qed.

End Whole.

Lemma default_charset_pipeline_witness :
  exists st',
    convert_text (E := copying_engine) (field sample_heart) initial_state =
      Returns result_ptr st' /\
    string_at st' result_ptr = Some (list_byte_of_string "&lt;3&gt;") /\
    trace st' = [call_iconv_open "UTF-8" "ISO6937";
                 call_iconv 7%Z sample_heart sizeof_buf] /\
    cs_old st' = "ISO6937".
Proof.
  destruct (default_charset_pipeline (E := copying_engine)
              "<"%byte (list_byte_of_string "3>") initial_state)
    as (st' & R & S & T & C & _).
  - simpl. lia.
  - left. split; reflexivity.
  - discriminate.
  - apply Nat.ltb_lt. reflexivity.
  - apply Nat.ltb_lt. reflexivity.
  - exists st'. split; [exact R|]. split; [exact S|]. split; [exact T | exact C].
Defined.

Lemma fixed_charset_pipeline_witness :
  exists st',
    convert_text (E := copying_engine) (field sample_turkish) initial_state =
      Returns result_ptr st' /\
    string_at st' result_ptr = Some (list_byte_of_string "a&amp;b") /\
    trace st' = [call_iconv_open "UTF-8" "ISO-8859-9";
                 call_iconv 7%Z (list_byte_of_string "a&b") sizeof_buf] /\
    cs_old st' = "ISO-8859-9".
Proof.
  destruct (fixed_charset_pipeline (E := copying_engine)
              x05 (list_byte_of_string "a&b") "ISO-8859-9" initial_state)
    as (st' & R & S & T & C & _).
  - reflexivity.
  - reflexivity.
  - left. split; reflexivity.
  - discriminate.
  - apply Nat.ltb_lt. reflexivity.
  - apply Nat.ltb_lt. reflexivity.
  - exists st'. split; [exact R|]. split; [exact S|]. split; [exact T | exact C].
Defined.

(* ------------------------------------------------------------------ *)
(** ** Failures, the cache across calls *)

Section Across.

Context {E : Collaborators}.

(** X8 - [convert_text] offers the engine all of [buf] and then writes
    the terminator behind the engine's output: when the engine uses up
    the 6144 bytes, [*outbuf = 0] lands one past the array, which is
    undefined behaviour. *)
Theorem iconv_terminator_overruns_buf (s : cptr) (inbytes : list byte)
    (st : state) :
  string_at st s = Some inbytes ->
  sizeof_buf <= List.length (iconv (cd st) inbytes sizeof_buf) ->
  convert_text_iconv s st = Undefined.
Proof.
  intros Hs Hl. rewrite iconv_cases, Hs.
  apply Nat.ltb_ge in Hl. now rewrite Hl.
Qed.

(** The stages in front of and behind [convert_text_open] never exit. *)
Lemma first_stage_inv (p : cptr) (c : byte) (st : state) :
  match (if Byte.to_nat c =? 0x1F then convert_text_freesat p
         else ret (if Spec.fixed_selector c then ptr_add p 1 else p)) st with
  | Returns _ st1 =>
      buf st1 = buf st /\ result st1 = result st /\
      cs_old st1 = cs_old st /\ cd st1 = cd st /\
      exists pre, trace st1 = trace st ++ pre /\
                  count is_open pre = 0 /\ count is_close pre = 0
  | Exits _ _ => False
  | Undefined => True
  end.
Proof.
  destruct (Byte.to_nat c =? 0x1F).
  - rewrite freesat_cases. destruct (string_at st p); [|exact I].
    simpl. repeat split. eexists. repeat split.
  - simpl. repeat split. exists []. rewrite app_nil_r. repeat split.
Qed.

Lemma iconv_stage_inv (s : cptr) (st : state) :
  match convert_text_iconv s st with
  | Returns _ st' =>
      result st' = result st /\ cs_old st' = cs_old st /\ cd st' = cd st /\
      exists inbytes, trace st' = trace st ++ [call_iconv (cd st) inbytes sizeof_buf]
  | Exits _ _ => False
  | Undefined => True
  end.
Proof.
  rewrite iconv_cases. destruct (string_at st s) as [inbytes|]; [|exact I].
  destruct (_ <? _); [|exact I].
  simpl. repeat split. now exists inbytes.
Qed.

(** X9 - The only way [convert_text] ends the process is a failed
    [iconv_open]: the exit status is 1, the last two calls are the
    [iconv_open] for the charset of the first byte and the error log, the
    handle holds the failure value, and the cached name, [buf] and
    [result] are as they were: nothing has been converted. *)
Theorem convert_text_exits_only_on_open_failure
    (p : cptr) (st st' : state) (status : Z) :
  convert_text p st = Exits status st' ->
  status = 1%Z /\
  exists c pre,
    peek st p = Some c /\
    iconv_open "UTF-8" (charset_of c) = iconv_failed /\
    strncmp (cs_old st) (charset_of c) 16 <> 0%Z /\
    trace st' = trace st ++ pre ++
                [call_iconv_open "UTF-8" (charset_of c); iconv_open_failed] /\
    cd st' = iconv_failed /\ cs_old st' = cs_old st /\
    buf st' = buf st /\ result st' = result st.
Proof.
  intros H. destruct (peek st p) as [c|] eqn:Hp.
  2: { unfold convert_text, bind in H.
       rewrite (resolve_unreadable p st Hp) in H. discriminate. }
  assert (Hv : c <> x10).
  { intros ->. unfold convert_text, bind in H.
    rewrite (resolve_cases p st x10 Hp) in H. discriminate. }
  destruct (Spec.reserved_selector c) eqn:Hr.
  { rewrite (convert_text_reserved p st c Hp Hr) in H. discriminate. }
  rewrite (convert_text_stages p st c Hp Hv Hr) in H.
  unfold bind at 1 in H.
  pose proof (first_stage_inv p c st) as F.
  destruct ((if Byte.to_nat c =? 31 then convert_text_freesat p
             else ret (if Spec.fixed_selector c then ptr_add p 1 else p)) st)
    as [s st1| |]; try discriminate; try contradiction.
  destruct F as (B1 & R1 & C1 & D1 & pre & T1 & _).
  unfold bind at 1 in H. rewrite open_cases in H.
  destruct (strncmp (cs_old st1) (charset_of c) 16 =? 0)%Z eqn:Hit.
  - unfold bind at 1 in H.
    pose proof (iconv_stage_inv s st1) as I1.
    destruct (convert_text_iconv s st1) as [[] st3| |];
      try discriminate; try contradiction.
    pose proof (xmlify_touches (mkptr Buf 0) st3) as X.
    rewrite H in X. contradiction.
  - destruct (iconv_open "UTF-8" (charset_of c) =? iconv_failed)%Z eqn:Fail.
    + injection H as <- <-. split; [reflexivity|].
      exists c, (pre ++ closes st1). apply Z.eqb_eq in Fail.
      apply Z.eqb_neq in Hit. rewrite C1 in Hit.
      unfold reopened. simpl. rewrite T1, <- !app_assoc.
      repeat split; auto.
    + unfold bind at 1 in H.
      pose proof (iconv_stage_inv s
                    (reopened st1 (charset_of c) (strncpy (charset_of c) 16)
                       (closes st1 ++ [call_iconv_open "UTF-8" (charset_of c)])))
        as I1.
      destruct (convert_text_iconv s _) as [[] st3| |];
        try discriminate; try contradiction.
      pose proof (xmlify_touches (mkptr Buf 0) st3) as X.
      rewrite H in X. contradiction.
Qed.

(** X10 - The Conversion State invariant is kept by [convert_text]: if
    the handle in [cd] is the one the engine gave out for the cached name
    (or nothing is cached yet) when the call starts, the same holds when
    it returns, on every input. *)
Theorem convert_text_keeps_cache_ok (p q : cptr) (st st' : state) :
  cache_ok st ->
  convert_text p st = Returns q st' ->
  cache_ok st'.
Proof.
  intros Hok H.
  destruct (convert_text_returns_inv p q st st' H)
    as (c & Hp & Hv & [(Hr & _ & ->)|(Hr & s & st1 & st2 & st3 & S1 & S2 & S3 & S4)]).
  - now apply cache_ok_same with st.
  - pose proof (first_stage_inv p c st) as F. rewrite S1 in F.
    destruct F as (_ & _ & C1 & D1 & _).
    pose proof (iconv_stage_inv s st2) as I1. rewrite S3 in I1.
    destruct I1 as (_ & C3 & D3 & _).
    pose proof (xmlify_touches (mkptr Buf 0) st3) as X. rewrite S4 in X.
    destruct X as (_ & _ & (_ & C4 & D4) & _).
    apply cache_ok_same with st3; auto.
    apply cache_ok_same with st2; auto.
    apply (open_keeps_cache_ok (charset_of c) st1 st2); auto.
    + destruct (charset_of_short c Hv Hr). lia.
    + now apply cache_ok_same with st.
Qed.

(** After a call that returned behind a usable selector, the cache holds
    the charset of that selector, and the handle is the one opened for
    it or the one that was cached. *)
Lemma convert_text_caches (p q : cptr) (st st' : state) (c : byte) :
  peek st p = Some c ->
  Spec.reserved_selector c = false ->
  convert_text p st = Returns q st' ->
  strncmp (cs_old st') (charset_of c) 16 = 0%Z.
Proof.
  intros Hp Hr H.
  destruct (convert_text_returns_inv p q st st' H)
    as (c' & Hp' & Hv & [(Hr' & _)|(_ & s & st1 & st2 & st3 & S1 & S2 & S3 & S4)]);
    rewrite Hp in Hp'; injection Hp' as <-; [congruence|].
  pose proof (iconv_stage_inv s st2) as I1. rewrite S3 in I1.
  destruct I1 as (_ & C3 & _).
  pose proof (xmlify_touches (mkptr Buf 0) st3) as X. rewrite S4 in X.
  destruct X as (_ & _ & (_ & C4 & _) & _).
  rewrite C4, C3. rewrite open_cases in S2.
  destruct (strncmp (cs_old st1) (charset_of c) 16 =? 0)%Z eqn:Hit.
  - injection S2 as <-. now apply Z.eqb_eq.
  - destruct (_ =? iconv_failed)%Z; [discriminate|].
    injection S2 as <-. apply strncmp_zero. simpl. apply substring_idem.
Qed.

(** The calls of one [convert_text] that returned, counted. *)
Lemma convert_text_counts (p q : cptr) (st st' : state) (c : byte) :
  peek st p = Some c ->
  convert_text p st = Returns q st' ->
  let hit := (Spec.reserved_selector c ||
              (strncmp (cs_old st) (charset_of c) 16 =? 0)%Z)%bool in
  count is_open (trace st') =
    count is_open (trace st) + (if hit then 0 else 1) /\
  count is_close (trace st') =
    count is_close (trace st) +
    (if hit then 0 else if (cd st =? NULL)%Z then 0 else 1).
Proof.
  intros Hp H hit. unfold hit. clear hit.
  destruct (convert_text_returns_inv p q st st' H)
    as (c' & Hp' & Hv & [(Hr & _ & ->)|(Hr & s & st1 & st2 & st3 & S1 & S2 & S3 & S4)]);
    rewrite Hp in Hp'; injection Hp' as <-; rewrite Hr; simpl orb.
  - unfold count, add_trace. simpl. rewrite !filter_app, !length_app. simpl.
    split; lia.
  - pose proof (first_stage_inv p c st) as F. rewrite S1 in F.
    destruct F as (_ & _ & C1 & D1 & pre & T1 & O1 & L1).
    pose proof (iconv_stage_inv s st2) as I1. rewrite S3 in I1.
    destruct I1 as (_ & _ & _ & inb & T3).
    pose proof (xmlify_touches (mkptr Buf 0) st3) as X. rewrite S4 in X.
    destruct X as (_ & _ & _ & logs & T4 & FL).
    assert (Lg : count is_open logs = 0 /\ count is_close logs = 0).
    { clear - FL. unfold count. induction logs as [|e logs IH]; [split; reflexivity|].
      simpl in FL. apply andb_true_iff in FL. destruct FL as [Fe Fl].
      destruct (IH Fl) as [A B].
      destruct e as [lvl fmt arg| | | |]; try discriminate Fe. simpl. auto. }
    destruct Lg as [Lo Lc].
    rewrite open_cases in S2. rewrite C1 in S2.
    destruct (strncmp (cs_old st) (charset_of c) 16 =? 0)%Z.
    + injection S2 as <-. rewrite T4, T3, T1. unfold count in *.
      rewrite !filter_app, !length_app. simpl. rewrite O1, L1, Lo, Lc. split; lia.
    + destruct (_ =? iconv_failed)%Z; [discriminate|]. injection S2 as <-.
      rewrite T4, T3. unfold reopened, closes. cbn [trace]. rewrite T1, D1.
      unfold count in *.
      destruct (cd st =? NULL)%Z;
        rewrite !filter_app, !length_app; simpl;
        rewrite ?filter_app, ?length_app; simpl;
        rewrite O1, L1, Lo, Lc; split; lia.
Qed.

(** X11 - Two calls in a row on fields with the same first byte never
    reopen the engine for the second: between the return of the first
    call and the return of the second no [iconv_open] and no
    [iconv_close] is made, whatever the fields hold behind that byte. *)
Theorem same_selector_never_reopens
    (p1 p2 q1 q2 : cptr) (st st1 st2 : state) (c : byte) :
  peek st p1 = Some c ->
  peek st1 p2 = Some c ->
  convert_text p1 st = Returns q1 st1 ->
  convert_text p2 st1 = Returns q2 st2 ->
  count is_open (trace st2) = count is_open (trace st1) /\
  count is_close (trace st2) = count is_close (trace st1).
Proof.
  intros Hp1 Hp2 R1 R2.
  destruct (convert_text_counts p2 q2 st1 st2 c Hp2 R2) as [O C].
  destruct (Spec.reserved_selector c) eqn:Hr; simpl in O, C; [split; lia|].
  rewrite (convert_text_caches p1 q1 st st1 c Hp1 Hr R1) in O, C.
  simpl in O, C. split; lia.
Qed.

(** X12 - A call whose first byte selects another charset than the one
    the previous call has cached reopens the engine exactly once: one
    [iconv_open], and one [iconv_close] if a handle was held. *)
Theorem other_charset_reopens_once
    (p1 p2 q1 q2 : cptr) (st st1 st2 : state) (c1 c2 : byte) :
  peek st p1 = Some c1 ->
  peek st1 p2 = Some c2 ->
  Spec.reserved_selector c1 = false ->
  Spec.reserved_selector c2 = false ->
  charset_of c1 <> charset_of c2 ->
  convert_text p1 st = Returns q1 st1 ->
  convert_text p2 st1 = Returns q2 st2 ->
  count is_open (trace st2) = count is_open (trace st1) + 1 /\
  count is_close (trace st2) =
    count is_close (trace st1) + (if (cd st1 =? NULL)%Z then 0 else 1).
Proof.
  intros Hp1 Hp2 Hr1 Hr2 Hne R1 R2.
  destruct (convert_text_counts p2 q2 st1 st2 c2 Hp2 R2) as [O C].
  rewrite Hr2 in O, C. simpl orb in O, C.
  pose proof (convert_text_caches p1 q1 st st1 c1 Hp1 Hr1 R1) as K1.
  destruct (strncmp (cs_old st1) (charset_of c2) 16 =? 0)%Z eqn:Hit;
    [|split; assumption].
  exfalso. apply Hne. apply Z.eqb_eq in Hit.
  apply strncmp_zero in K1. apply strncmp_zero in Hit.
  assert (V1 : c1 <> x10).
  { destruct (convert_text_returns_inv p1 q1 st st1 R1) as (c & Hc & Hv & _).
    congruence. }
  assert (V2 : c2 <> x10).
  { destruct (convert_text_returns_inv p2 q2 st1 st2 R2) as (c & Hc & Hv & _).
    congruence. }
  destruct (charset_of_short c1 V1 Hr1) as [L1 _].
  destruct (charset_of_short c2 V2 Hr2) as [L2 _].
  rewrite (substring_all 16 (charset_of c1)) in K1 by lia.
  rewrite (substring_all 16 (charset_of c2)) in Hit by lia.
  congruence.
Qed.

End Across.

Lemma iconv_terminator_overruns_buf_witness :
  string_at initial_state (field sample_Hi) = Some sample_Hi /\
  sizeof_buf <= List.length (iconv (Collaborators := flooding_engine)
                               (cd initial_state) sample_Hi sizeof_buf) /\
  convert_text_iconv (E := flooding_engine) (field sample_Hi) initial_state =
    Undefined.
Proof.
  assert (H1 : string_at initial_state (field sample_Hi) = Some sample_Hi)
    by reflexivity.
  assert (H2 : sizeof_buf <= List.length (iconv (Collaborators := flooding_engine)
                                            (cd initial_state) sample_Hi sizeof_buf))
    by (apply Nat.leb_le; vm_compute; reflexivity).
  split; [exact H1|]. split; [exact H2|].
  exact (iconv_terminator_overruns_buf (E := flooding_engine)
           (field sample_Hi) sample_Hi initial_state H1 H2).
Defined.

Lemma convert_text_exits_only_on_open_failure_witness :
  exists st',
    convert_text (E := copying_engine) (field sample_big5) initial_state =
      Exits 1 st' /\
    trace st' = [call_iconv_open "UTF-8" "BIG5"; iconv_open_failed] /\
    cs_old st' = EmptyString /\ cd st' = iconv_failed.
Proof.
  eexists.
  split; [vm_compute; reflexivity|].
  split; [reflexivity|]. split; [reflexivity|].
  refine (let H := convert_text_exits_only_on_open_failure (E := copying_engine)
                     (field sample_big5) initial_state _ 1%Z _ in _).
  destruct H as (_ & c & pre & _ & _ & _ & _ & D & _). exact D.
  Unshelve. vm_compute. reflexivity.
Defined.

Lemma convert_text_keeps_cache_ok_witness :
  exists st',
    cache_ok (E := copying_engine) initial_state /\
    convert_text (E := copying_engine) (field sample_fixed) initial_state =
      Returns result_ptr st' /\
    cache_ok (E := copying_engine) st'.
Proof.
  eexists.
  assert (H1 : cache_ok (E := copying_engine) initial_state)
    by (left; split; reflexivity).
  split; [exact H1|].
  split; [vm_compute; reflexivity|].
  refine (convert_text_keeps_cache_ok (E := copying_engine)
            (field sample_fixed) result_ptr initial_state _ H1 _).
  vm_compute. reflexivity.
Defined.

Lemma same_selector_never_reopens_witness :
  exists st1 st2,
    convert_text (E := copying_engine) (field sample_fixed) initial_state =
      Returns result_ptr st1 /\
    convert_text (E := copying_engine) (field (x01 :: sample_markup)) st1 =
      Returns result_ptr st2 /\
    count is_open (trace st1) = 1 /\
    count is_open (trace st2) = count is_open (trace st1) /\
    count is_close (trace st2) = count is_close (trace st1).
Proof.
  eexists. eexists.
  split; [vm_compute; reflexivity|].
  split; [vm_compute; reflexivity|].
  split; [reflexivity|].
  refine (same_selector_never_reopens (E := copying_engine)
            (field sample_fixed) (field (x01 :: sample_markup))
            result_ptr result_ptr initial_state _ _ x01 _ _ _ _);
    vm_compute; reflexivity.
Defined.

Lemma other_charset_reopens_once_witness :
  exists st1 st2,
    convert_text (E := copying_engine) (field sample_fixed) initial_state =
      Returns result_ptr st1 /\
    convert_text (E := copying_engine) (field sample_heart) st1 =
      Returns result_ptr st2 /\
    charset_of x01 <> charset_of "<"%byte /\
    count is_open (trace st2) = count is_open (trace st1) + 1 /\
    count is_close (trace st2) =
      count is_close (trace st1) + (if (cd st1 =? NULL)%Z then 0 else 1).
Proof.
  eexists. eexists.
  split; [vm_compute; reflexivity|].
  split; [vm_compute; reflexivity|].
  assert (N : charset_of x01 <> charset_of "<"%byte) by discriminate.
  split; [exact N|].
  refine (other_charset_reopens_once (E := copying_engine)
            (field sample_fixed) (field sample_heart)
            result_ptr result_ptr initial_state _ _ x01 "<"%byte _ _ _ _ N _ _);
    vm_compute; reflexivity.
Defined.

(* ------------------------------------------------------------------ *)
(** ** Plain text, return values, names *)

Lemma entity_markup c :
  (is_markup c = true /\ 4 <= List.length (Spec.xml_entity c)) \/
  (is_markup c = false /\ Spec.xml_entity c = [c]).
Proof.
  destruct c; first [right; split; reflexivity | left; split; [reflexivity|simpl; lia]].
Qed.

Lemma escape_grows s :
  existsb is_markup s = true -> List.length s < List.length (Spec.escape s).
Proof.
  induction s as [|c s IH]; simpl; [discriminate|].
  rewrite length_app. pose proof (escape_length_lower s).
  destruct (entity_markup c) as [[M L]|[M Ec]]; rewrite M; simpl.
  - intros _. lia.
  - intros Hs. rewrite Ec. simpl. specialize (IH Hs). lia.
Qed.

Lemma escape_plain_text s :
  existsb is_markup s = false -> Spec.escape s = s.
Proof.
  induction s as [|c s IH]; simpl; [reflexivity|].
  destruct (entity_markup c) as [[M L]|[M Ec]]; rewrite M; simpl;
    [discriminate|].
  intros Hs. rewrite Ec. simpl. f_equal. now apply IH.
Qed.

(** X13 - Text without markup passes through unchanged, and only such
    text does: the string [xmlify] returns equals its input string
    exactly when the input holds no quote, ampersand, less-than or
    greater-than byte. *)
Theorem xmlify_identity_iff_no_markup (s : list byte) (st : state) :
  is_c_string s = true ->
  List.length (Spec.escape s) < sizeof_result ->
  exists st' out,
    xmlify (field s) st = Returns result_ptr st' /\
    string_at st' result_ptr = Some out /\
    (out = s <-> existsb is_markup s = false).
Proof.
  intros Hs Hl. apply is_c_string_spec in Hs.
  exists (xmlify_post st s), (Spec.escape s). split; [|split].
  - apply xmlify_correct; [discriminate | now apply string_at_caller | exact Hl].
  - now apply string_at_xmlify_post.
  - split.
    + intros H. destruct (existsb is_markup s) eqn:M; [|reflexivity].
      apply escape_grows in M. rewrite H in M. lia.
    + apply escape_plain_text.
Qed.

Lemma xmlify_identity_iff_no_markup_witness :
  is_c_string sample_Hi = true /\
  List.length (Spec.escape sample_Hi) < sizeof_result /\
  exists st' out,
    xmlify (field sample_Hi) initial_state = Returns result_ptr st' /\
    string_at st' result_ptr = Some out /\
    (out = sample_Hi <-> existsb is_markup sample_Hi = false).
Proof.
  assert (H1 : is_c_string sample_Hi = true) by reflexivity.
  assert (H2 : List.length (Spec.escape sample_Hi) < sizeof_result)
    by (apply Nat.ltb_lt; reflexivity).
  split; [exact H1|]. split; [exact H2|].
  exact (xmlify_identity_iff_no_markup sample_Hi initial_state H1 H2).
Defined.

Lemma table_names_short (i : nat) (name : string) :
  data (encoding i) = Some name -> String.length name < 16.
Proof.
  unfold encoding.
  do 32 (destruct i as [|i];
         [simpl; intros H; first [discriminate H | injection H as <-; simpl; lia]|]).
  simpl. destruct i; discriminate.
Qed.

Lemma variable_names_fit_true : names_fit_from (256 * 256) 0 = true.
Proof. vm_compute. reflexivity. Qed.

Lemma names_fit_from_sound count : forall i,
  names_fit_from count i = true ->
  forall k, (i <= k < i + Z.of_nat count)%Z ->
  String.eqb (snprintf 16 "ISO-8859-%d" k) (format_d "ISO-8859-%d" k) = true.
Proof.
  induction count as [|count IH]; intros i H k Hk; [lia|].
  cbn [names_fit_from] in H. apply andb_true_iff in H. destruct H as [H0 H1].
  destruct (Z.eq_dec k i) as [->|N]; [exact H0|].
  apply (IH (i + 1)%Z H1). lia.
Qed.

(** X14 - No charset name is cut by the 16-byte arrays: every name in the
    table, and the default name, is shorter than 16 bytes, so [strncpy]
    copies it whole with its terminator; and for the index any two bytes
    can form, [snprintf] writes the whole formatted name of the variable
    template. *)
Theorem charset_names_fit :
  (forall i name,
     data (encoding i) = Some name ->
     String.length name < 16 /\ strncpy name 16 = name) /\
  strncpy iso6937_encoding 16 = iso6937_encoding /\
  (forall c1 c2 : byte,
     let i := (Z.shiftl (Z.of_N (Byte.to_N c1)) 8 + Z.of_N (Byte.to_N c2))%Z in
     snprintf 16 "ISO-8859-%d" i = format_d "ISO-8859-%d" i).
Proof.
  split; [|split; [reflexivity|]].
  - intros i name H. pose proof (table_names_short i name H) as L.
    split; [exact L|]. unfold strncpy. apply substring_all. lia.
  - intros c1 c2 i.
    apply String.eqb_eq.
    apply (names_fit_from_sound (256 * 256) 0 variable_names_fit_true).
    assert (C : Z.of_nat (256 * 256) = 65536%Z) by (vm_compute; reflexivity).
    rewrite C. clear C.
    unfold i. rewrite Z.shiftl_mul_pow2 by lia.
    rewrite !Byte.to_N_via_nat, !nat_N_Z.
    pose proof (Byte.to_nat_bounded c1). pose proof (Byte.to_nat_bounded c2).
    lia.
Qed.

Section Returned.

Context {E : Collaborators}.

(** X15 - [convert_text] returns one of two pointers: the literal [""]
    when the first byte is a reserved selector, in which case the static
    arrays are untouched, and the static array [result] otherwise; so
    every converted string lives in the same array and is overwritten by
    the next conversion. *)
Theorem convert_text_returns_result_or_empty (p q : cptr) (st st' : state) :
  convert_text p st = Returns q st' ->
  exists c, peek st p = Some c /\
    ((Spec.reserved_selector c = true /\ q = empty_literal /\
      buf st' = buf st /\ result st' = result st) \/
     (Spec.reserved_selector c = false /\ q = result_ptr)).
Proof.
  intros H.
  destruct (convert_text_returns_inv p q st st' H)
    as (c & Hp & Hv & [(Hr & -> & ->)|(Hr & s & st1 & st2 & st3 & _ & _ & _ & S4)]);
    exists c; (split; [exact Hp|]).
  - left. repeat split. exact Hr.
  - right. split; [exact Hr|].
    pose proof (xmlify_touches (mkptr Buf 0) st3) as X. rewrite S4 in X.
    now destruct X.
Qed.

(** X16 - A field that starts with 0x1F is resolved to the default
    charset, decoded by the Freesat decoder with its selector byte, and
    the decoder's string is then converted under [ISO6937] and escaped:
    the trace holds the decoder call, the reopening if another name was
    cached, and one [iconv] call on the decoder's string; the string
    returned in [result] is the escaped engine output. *)
Theorem freesat_pipeline (rest : list byte) (st : state) :
  let z := x1f :: c_string_of rest in
  let decoded := c_string_of (freesat_huffman_to_string z (List.length z)) in
  let h := iconv_open "UTF-8" "ISO6937" in
  let out := c_string_of (iconv h decoded sizeof_buf) in
  cache_ok st ->
  h <> iconv_failed ->
  List.length (iconv h decoded sizeof_buf) < sizeof_buf ->
  List.length (Spec.escape out) < sizeof_result ->
  exists st',
    convert_text (field (x1f :: rest)) st = Returns result_ptr st' /\
    string_at st' result_ptr = Some (Spec.escape out) /\
    trace st' =
      trace st ++ call_freesat_huffman_to_string z (List.length z) ::
      reopening st "ISO6937" ++
      call_iconv h decoded sizeof_buf :: reports out /\
    cs_old st' = "ISO6937" /\ cd st' = h.
Proof.
  intros z decoded h out Hok Hopen Hout Hesc.
  rewrite (convert_text_stages (field (x1f :: rest)) st x1f
             (peek_field_head st x1f rest)) by (discriminate || reflexivity).
  cbn [Byte.to_nat Nat.eqb]. unfold bind at 1.
  rewrite freesat_cases, string_at_field.
  change (c_string_of (x1f :: rest)) with z.
  set (st1 := add_trace [call_freesat_huffman_to_string z (List.length z)] st).
  assert (Hok1 : cache_ok st1) by (now apply cache_ok_same with st).
  destruct (open_succeeds "ISO6937" st1) as (st2 & O & D2 & C2 & B2 & R2 & T2);
    [simpl; lia | discriminate | exact Hok1 | exact Hopen |].
  unfold bind at 1. change (charset_of x1f) with "ISO6937". rewrite O.
  unfold bind at 1.
  assert (Hs : string_at st2
                 (field (freesat_huffman_to_string z (List.length z))) =
               Some decoded) by apply string_at_field.
  rewrite (iconv_step _ _ _ Hs) by (rewrite D2; exact Hout).
  assert (S3 : string_at (converted st2 decoded) (mkptr Buf 0) = Some out).
  { apply string_at_buf_cut with (buf st2); [|exact Hout].
    unfold converted. cbn [buf]. rewrite D2.
    change (iconv_open "UTF-8" "ISO6937") with h.
    rewrite firstn_all2 by (apply Nat.lt_le_incl; exact Hout). reflexivity. }
  exists (xmlify_post (converted st2 decoded) out).
  split; [|split; [|split; [|split]]].
  - apply xmlify_correct; [discriminate | exact S3 | exact Hesc].
  - apply string_at_xmlify_post; [apply c_string_of_no_NUL | exact Hesc].
  - unfold xmlify_post, converted. cbn [trace]. rewrite T2, D2.
    unfold st1, add_trace. cbn [trace]. unfold reopening, closes. cbn [cs_old cd].
    now rewrite <- !app_assoc.
  - exact C2.
  - exact D2.
Qed.

End Returned.

Lemma convert_text_returns_result_or_empty_witness :
  exists st',
    convert_text (E := copying_engine) (field sample_fixed) initial_state =
      Returns result_ptr st' /\
    exists c, peek initial_state (field sample_fixed) = Some c /\
              Spec.reserved_selector c = false.
Proof.
  destruct (convert_text (E := copying_engine) (field sample_fixed) initial_state)
    as [q st'| |] eqn:R.
  - destruct (convert_text_returns_result_or_empty (E := copying_engine)
                (field sample_fixed) q initial_state st' R)
      as (c & Hp & [(Hr & _)|(Hr & ->)]).
    + vm_compute in Hp. injection Hp as <-. discriminate Hr.
    + exists st'. split; [reflexivity|]. exists c. split; assumption.
  - vm_compute in R. discriminate.
  - vm_compute in R. discriminate.
Defined.

Lemma freesat_pipeline_witness :
  exists st',
    convert_text (E := masking_engine) (field sample_freesat) initial_state =
      Returns result_ptr st' /\
    string_at st' result_ptr = Some (list_byte_of_string "??") /\
    cs_old st' = "ISO6937".
Proof.
  destruct (freesat_pipeline (E := masking_engine)
              (list_byte_of_string "a&") initial_state)
    as (st' & R & S & _ & C & _).
  - left. split; reflexivity.
  - discriminate.
  - apply Nat.ltb_lt. reflexivity.
  - apply Nat.ltb_lt. reflexivity.
  - exists st'. split; [exact R|]. split; [exact S | exact C].
Defined.
